(** * zen2: the decision engine of the trading terminal

    A shallow embedding of [src/services/bitcoinService.ts] (volatility and
    probability model) and of [runEngine] in [src/TradingTerminal.tsx] (the
    periodic tick: take-profit exits, cooldown, entry evaluation, the
    processing lock), with the properties of the specification stated over
    them.

    Numbers.  A JavaScript [number] is an IEEE 754 binary64 value, and so is
    Rocq's primitive [float]: [+], [-], [*], [/], [sqrt] and the comparisons
    are the same operations, NaN and the infinities included.  Timestamps
    ([Date.now()]) and counters are integers and are kept in [Z].

    Collaborators.  [fetchOrderBook] and [placeOrderWithClient] belong to
    [services/polymarketService], which is outside the engine; a tick is
    given them, the clock and the random identifier in a [World].
    [TradingTerminal.tsx] calls [fetchOrderBook] without importing it; it
    is taken to be the function that [OrderBookView] imports.

    State.  [botStatusRef.current] is a copy of the [botStatus] state made
    after each render; a tick reads it at its start, five seconds after
    the previous one, and once more to count BUY entries, which the status
    updates of the same tick do not change.  The model reads [botStatus]
    itself.

    Time.  [runEngine] is an async function.  It is given twice: run to
    its end ([runEngine]), which is how ticks follow one another when each
    finishes within the timer period, and cut at its awaits ([startTick],
    [resume]), which lets ticks overlap; [machine_tick_is_runEngine]
    relates the two. *)

From Stdlib Require Import ZArith Bool List String Ascii Lia.
From Stdlib Require Import Floats.
Import ListNotations.

Set Warnings "-inexact-float".

Local Open Scope float_scope.

(** ** JavaScript number primitives *)

Module Js.

(** [x || d] on numbers: [0], [-0] and [NaN] are falsy. *)
Definition falsy (x : float) : bool := is_nan x || is_zero x.

Definition orDefault (x : option float) (d : float) : float :=
  match x with
  | Some v => if falsy v then d else v
  | None => d
  end.

(** [x >= y] and [x > y]; both are false as soon as one side is NaN. *)
Definition geb (x y : float) : bool := y <=? x.
Definition gtb (x y : float) : bool := y <? x.

(** An integer as a number ([array.length], a literal). *)
Definition ofZ (z : Z) : float := SF2Prim (binary_normalize prec emax z 0 false).
Definition ofNat (n : nat) : float := ofZ (Z.of_nat n).

Definition isNegZero (x : float) : bool :=
  match Prim2SF x with
  | S754_zero true => true
  | _ => false
  end.

(** [Math.max(a, b)]: NaN if either is NaN, and [+0] is larger than [-0]. *)
Definition max (a b : float) : float :=
  if is_nan a || is_nan b then nan
  else if a <? b then b
  else if b <? a then a
  else if isNegZero a then b else a.



(** [Math.pow(x, 2)], taken as the correctly rounded square. *)
Definition square (x : float) : float := x * x.

End Js.

(** ** bitcoinService.ts *)

Module BitcoinService.

Record PriceEntry := { timestamp : Z; price : float }.

(** [calculateVolatility], as a function of the module's [priceHistory]. *)
Definition calculateVolatility (priceHistory : list PriceEntry) : float :=
  if (List.length priceHistory <? 2)%nat then 5.0
  else
    let prices := map price priceHistory in
    let mean := fold_left (fun a b => a + b) prices 0 / Js.ofNat (List.length prices) in
    let variance :=
      fold_left (fun a b => a + Js.square (b - mean)) prices 0
      / Js.ofNat (List.length prices) in
    Js.max (sqrt variance) 1.0.


End BitcoinService.

(** ** types.ts *)

Inductive Outcome := YES | NO.
Inductive Side := BUY | SELL.
Inductive Status := OPEN | CLOSED | PARTIAL.
Inductive TradeDirectionBias := BOTH | YES_ONLY | NO_ONLY.

(** The fields of [Market] the engine reads. *)
Record Market := {
  id : string;
  question : string;
  clobTokenIds : list string
}.

Record OrderBookLevel := { price : float; size : float }.

Record OrderBook := { bids : list OrderBookLevel; asks : list OrderBookLevel }.

Module TradeLog.

Record t := {
  id : string;
  timestamp : Z;
  marketId : string;
  question : string;
  outcome : Outcome;
  side : Side;
  entryPrice : float;
  size : float;
  btcPriceAtEntry : float;
  modelProb : float;
  marketProb : float;
  volatilityAtEntry : float;
  status : Status
}.

(** [{ ...l, status: s }] *)
Definition withStatus (l : t) (s : Status) : t :=
  {| id := id l; timestamp := timestamp l; marketId := marketId l;
     question := question l; outcome := outcome l; side := side l;
     entryPrice := entryPrice l; size := size l;
     btcPriceAtEntry := btcPriceAtEntry l; modelProb := modelProb l;
     marketProb := marketProb l; volatilityAtEntry := volatilityAtEntry l;
     status := s |}.

End TradeLog.

Record RiskConfig := {
  maxPositionSize : float;
  edgeThreshold : float;
  maxTradesPerSeries : float;
  volatilityLookback : float;
  minProbThreshold : float;
  takeProfitPct : float;
  sellAmountPct : float;
  directionBias : TradeDirectionBias;
  maxBuyCountPerMarket : float
}.

(** The fields of [TradingSecrets] and [BotStatus] the engine reads or
    writes; balances and the key material play no part in a tick. *)
Record TradingSecrets := { proxyAddress : string; isConfigured : bool }.

Record BotStatus := {
  isActive : bool;
  tradesCount : Z;
  logs : list TradeLog.t;
  secrets : TradingSecrets
}.

Definition Outcome_eqb (a b : Outcome) : bool :=
  match a, b with YES, YES | NO, NO => true | _, _ => false end.

Definition Side_eqb (a b : Side) : bool :=
  match a, b with BUY, BUY | SELL, SELL => true | _, _ => false end.

Definition Status_eqb (a b : Status) : bool :=
  match a, b with
  | OPEN, OPEN | CLOSED, CLOSED | PARTIAL, PARTIAL => true
  | _, _ => false
  end.

Definition Bias_eqb (a b : TradeDirectionBias) : bool :=
  match a, b with
  | BOTH, BOTH | YES_ONLY, YES_ONLY | NO_ONLY, NO_ONLY => true
  | _, _ => false
  end.

(** ** String helpers ([toLowerCase], [includes]) *)

Module Str.

Definition lowerAscii (c : ascii) : ascii :=
  let n := nat_of_ascii c in
  if ((65 <=? n) && (n <=? 90))%nat then ascii_of_nat (n + 32) else c.

Fixpoint toLowerCase (s : string) : string :=
  match s with
  | EmptyString => EmptyString
  | String c r => String (lowerAscii c) (toLowerCase r)
  end.

Fixpoint includes (needle hay : string) : bool :=
  String.prefix needle hay
  || match hay with
     | EmptyString => false
     | String _ r => includes needle r
     end.

End Str.

(** ** TradingTerminal.tsx: component state *)

Inductive EventType := INFO | WARN | SUCCESS | ERROR.

(** The text of a system event.  Messages that interpolate numbers keep the
    numbers themselves (their rendering by [toFixed] is presentation);
    every other message is its string. *)
Inductive EventMsg :=
| Text (s : string)
| ClobDepth (yesAsk noAsk : float)
| CheckingPositions (n : nat)
| TpTriggered (pnlPct sellPct : float)
| AlphaAnalysis (model yesEdge noEdge : float)
| BuyLimitReached (currentBuys : nat) (limit : float)
| OpportunityFound (o : Outcome) (executePrice positionSize : float).

(** An event of the log; its identifier and clock time are left out. *)
Record SystemEvent := { msg : EventMsg; type : EventType }.

Definition COOLDOWN_MS : Z := 15000.

(** What [runEngine] reads and writes across ticks: the [botStatus] state
    (through [botStatusRef]), the two refs, the executing flag and the
    event log. *)
Record Terminal := {
  botStatus : BotStatus;
  lastTradeTimeRef : Z;
  processingTradeRef : bool;
  isExecuting : bool;
  systemEvents : list SystemEvent
}.

(** What a tick captures when it starts: the refs it reads once
    ([selectedMarketRef], [riskRef]) and the render values in its closure.
    [apiCreds] and [signer] are opaque capabilities, present or not. *)
Record Closure := {
  selectedMarket : option Market;
  risk : RiskConfig;
  modelProb : float;
  btcPrice : float;
  btcVol : float;
  apiCreds : bool;
  signer : bool
}.

(** One call of [placeOrderWithClient]. *)
Record Order := {
  proxy : string;
  tokenId : option string;
  limitPrice : float;
  orderSize : float;
  orderSide : Side
}.

(** The promise of [placeOrderWithClient] resolves or rejects with an
    error carrying a message. *)
Inductive OrderResult := Filled | Rejected (message : string).

(** The collaborators of a tick: the order-book fetch, the order
    submission (what a submission returns is a function of its arguments
    for the time of a stretch of the tick), the three readings of
    [Date.now()] (cooldown check, log timestamp, last-trade time) and the
    identifier drawn for a new log. *)
Record World := {
  fetchOrderBook : option string -> OrderBook;
  placeOrderWithClient : Order -> OrderResult;
  nowAtEntry : Z;
  nowAtLog : Z;
  nowAtConfirm : Z;
  randomId : string
}.

Definition setBotStatus (f : BotStatus -> BotStatus) (t : Terminal) : Terminal :=
  {| botStatus := f (botStatus t);
     lastTradeTimeRef := lastTradeTimeRef t;
     processingTradeRef := processingTradeRef t;
     isExecuting := isExecuting t;
     systemEvents := systemEvents t |}.

Definition setLastTradeTime (z : Z) (t : Terminal) : Terminal :=
  {| botStatus := botStatus t;
     lastTradeTimeRef := z;
     processingTradeRef := processingTradeRef t;
     isExecuting := isExecuting t;
     systemEvents := systemEvents t |}.

Definition setProcessingTrade (b : bool) (t : Terminal) : Terminal :=
  {| botStatus := botStatus t;
     lastTradeTimeRef := lastTradeTimeRef t;
     processingTradeRef := b;
     isExecuting := isExecuting t;
     systemEvents := systemEvents t |}.

Definition setIsExecuting (b : bool) (t : Terminal) : Terminal :=
  {| botStatus := botStatus t;
     lastTradeTimeRef := lastTradeTimeRef t;
     processingTradeRef := processingTradeRef t;
     isExecuting := b;
     systemEvents := systemEvents t |}.

(** [addEvent]: newest first, the latest hundred kept. *)
Definition addEvent (m : EventMsg) (ty : EventType) (t : Terminal) : Terminal :=
  {| botStatus := botStatus t;
     lastTradeTimeRef := lastTradeTimeRef t;
     processingTradeRef := processingTradeRef t;
     isExecuting := isExecuting t;
     systemEvents := firstn 100 ({| msg := m; type := ty |} :: systemEvents t) |}.

Definition withActive (b : bool) (s : BotStatus) : BotStatus :=
  {| isActive := b; tradesCount := tradesCount s; logs := logs s;
     secrets := secrets s |}.

Definition withLogs (ls : list TradeLog.t) (s : BotStatus) : BotStatus :=
  {| isActive := isActive s; tradesCount := tradesCount s; logs := ls;
     secrets := secrets s |}.

(** ** TradingTerminal.tsx: the pieces of [runEngine] *)

(** Top of book with the defaults of the decision path: ask 1, bid 0. *)
Record Quotes := {
  bestYesAsk : float;
  bestNoAsk : float;
  bestYesBid : float;
  bestNoBid : float
}.

Definition quotes (yesBook noBook : OrderBook) : Quotes :=
  {| bestYesAsk := Js.orDefault (option_map price (hd_error (asks yesBook))) 1;
     bestNoAsk := Js.orDefault (option_map price (hd_error (asks noBook))) 1;
     bestYesBid := Js.orDefault (option_map price (hd_error (bids yesBook))) 0;
     bestNoBid := Js.orDefault (option_map price (hd_error (bids noBook))) 0 |}.

(** [market.clobTokenIds[0]] for YES, [[1]] for NO. *)
Definition tokenOf (market : Market) (o : Outcome) : option string :=
  match o with
  | YES => nth_error (clobTokenIds market) 0
  | NO => nth_error (clobTokenIds market) 1
  end.

(** [openTrades]: the OPEN entries of the selected market. *)
Definition openTrades (market : Market) (ls : list TradeLog.t) : list TradeLog.t :=
  filter (fun l => Status_eqb (TradeLog.status l) OPEN
                   && String.eqb (TradeLog.marketId l) (id market)) ls.

(** [currentBuys]: every BUY entry of the selected market, whatever its
    status. *)
Definition currentBuys (market : Market) (ls : list TradeLog.t) : nat :=
  List.length
    (filter (fun l => String.eqb (TradeLog.marketId l) (id market)
                      && Side_eqb (TradeLog.side l) BUY) ls).

Definition currentBid (q : Quotes) (trade : TradeLog.t) : float :=
  match TradeLog.outcome trade with
  | YES => bestYesBid q
  | NO => bestNoBid q
  end.

Definition pnlPct (q : Quotes) (trade : TradeLog.t) : float :=
  ((currentBid q trade - TradeLog.entryPrice trade) / TradeLog.entryPrice trade) * 100.

(** The two nested conditions of the exit loop. *)
Definition takeProfitDue (r : RiskConfig) (q : Quotes) (trade : TradeLog.t) : bool :=
  Js.gtb (currentBid q trade) 0 && Js.geb (pnlPct q trade) (takeProfitPct r).

Definition sellOrder (s : TradingSecrets) (market : Market) (r : RiskConfig)
  (q : Quotes) (trade : TradeLog.t) : Order :=
  {| proxy := proxyAddress s;
     tokenId := tokenOf market (TradeLog.outcome trade);
     limitPrice := currentBid q trade - 0.01;
     orderSize := TradeLog.size trade * (sellAmountPct r / 100);
     orderSide := SELL |}.

(** The status a sold position is given. *)
Definition soldStatus (r : RiskConfig) : Status :=
  if sellAmountPct r =? 100 then CLOSED else PARTIAL.

(** [prev.logs.map(l => l.id === trade.id ? { ...l, status } : l)] *)
Definition markSold (r : RiskConfig) (trade : TradeLog.t) (ls : list TradeLog.t)
  : list TradeLog.t :=
  map (fun l => if String.eqb (TradeLog.id l) (TradeLog.id trade)
                then TradeLog.withStatus l (soldStatus r) else l) ls.

(** From taking the lock to the call of [placeOrderWithClient]. *)
Definition beginSell (r : RiskConfig) (q : Quotes) (trade : TradeLog.t)
  (t : Terminal) : Terminal :=
  addEvent (TpTriggered (pnlPct q trade) (sellAmountPct r)) SUCCESS
    (setIsExecuting true (setProcessingTrade true t)).

(** From the settled promise to the end of [finally].  [syncWallet]
    refreshes the balances, which no tick reads. *)
Definition endSell (r : RiskConfig) (trade : TradeLog.t) (res : OrderResult)
  (t : Terminal) : Terminal :=
  let t' :=
    match res with
    | Filled =>
        addEvent (Text "Take Profit Order Executed Successfully.") SUCCESS
          (setBotStatus (fun prev => withLogs (markSold r trade (logs prev)) prev) t)
    | Rejected m =>
        addEvent (Text ("TP Execution Failed: " ++ m)) ERROR t
    end in
  setIsExecuting false (setProcessingTrade false t').

(** The [for] loop over [openTrades], each due position sold in turn. *)
Fixpoint exitLoop (w : World) (s : TradingSecrets) (market : Market)
  (r : RiskConfig) (q : Quotes) (trades : list TradeLog.t) (t : Terminal)
  : Terminal * list Order :=
  match trades with
  | [] => (t, [])
  | trade :: rest =>
      if takeProfitDue r q trade then
        let o := sellOrder s market r q trade in
        let t1 := beginSell r q trade t in
        let t2 := endSell r trade (placeOrderWithClient w o) t1 in
        let (t3, os) := exitLoop w s market r q rest t2 in
        (t3, o :: os)
      else exitLoop w s market r q rest t
  end.

Definition yesEdge (modelProb : float) (q : Quotes) : float :=
  ((modelProb / 100) - bestYesAsk q) * 100.

Definition noEdge (modelProb : float) (q : Quotes) : float :=
  ((100 - modelProb) / 100 - bestNoAsk q) * 100.

Definition yesTriggers (r : RiskConfig) (modelProb : float) (q : Quotes) : bool :=
  (Bias_eqb (directionBias r) BOTH || Bias_eqb (directionBias r) YES_ONLY)
  && Js.geb modelProb (minProbThreshold r)
  && Js.geb (yesEdge modelProb q) (edgeThreshold r).

Definition noTriggers (r : RiskConfig) (modelProb : float) (q : Quotes) : bool :=
  (Bias_eqb (directionBias r) BOTH || Bias_eqb (directionBias r) NO_ONLY)
  && Js.geb (100 - modelProb) (minProbThreshold r)
  && Js.geb (noEdge modelProb q) (edgeThreshold r).

(** [executeOutcome] and [executePrice] after the [if] / [else if]. *)
Definition entryCandidate (r : RiskConfig) (modelProb : float) (q : Quotes)
  : option (Outcome * float) :=
  if yesTriggers r modelProb q then Some (YES, bestYesAsk q)
  else if noTriggers r modelProb q then Some (NO, bestNoAsk q)
  else None.

Definition unitsToBuy (r : RiskConfig) (executePrice : float) : float :=
  maxPositionSize r / executePrice.

Definition buyOrder (s : TradingSecrets) (market : Market) (r : RiskConfig)
  (o : Outcome) (executePrice : float) : Order :=
  {| proxy := proxyAddress s;
     tokenId := tokenOf market o;
     limitPrice := executePrice + 0.01;
     orderSize := unitsToBuy r executePrice;
     orderSide := BUY |}.

Definition newLog (w : World) (c : Closure) (market : Market) (o : Outcome)
  (executePrice : float) : TradeLog.t :=
  {| TradeLog.id := randomId w;
     TradeLog.timestamp := nowAtLog w;
     TradeLog.marketId := id market;
     TradeLog.question := question market;
     TradeLog.outcome := o;
     TradeLog.side := BUY;
     TradeLog.entryPrice := executePrice;
     TradeLog.size := unitsToBuy (risk c) executePrice;
     TradeLog.btcPriceAtEntry := btcPrice c;
     TradeLog.modelProb := modelProb c;
     TradeLog.marketProb := executePrice * 100;
     TradeLog.volatilityAtEntry := btcVol c;
     TradeLog.status := OPEN |}.

(** The test of the [catch] of the entry path. *)
Definition isAuthError (eMsg : string) : bool :=
  Str.includes "unauthorized" (Str.toLowerCase eMsg)
  || Str.includes "401" eMsg
  || Str.includes "invalid api key" (Str.toLowerCase eMsg).

Definition beginBuy (r : RiskConfig) (o : Outcome) (executePrice : float)
  (t : Terminal) : Terminal :=
  addEvent (OpportunityFound o executePrice (maxPositionSize r)) SUCCESS
    (setIsExecuting true (setProcessingTrade true t)).

Definition endBuy (w : World) (c : Closure) (market : Market) (o : Outcome)
  (executePrice : float) (res : OrderResult) (t : Terminal) : Terminal :=
  let t' :=
    match res with
    | Filled =>
        setLastTradeTime (nowAtConfirm w)
          (addEvent (Text "Order Confirmed on Polygon Network.") SUCCESS
             (setBotStatus
                (fun prev =>
                   {| isActive := isActive prev;
                      tradesCount := (tradesCount prev + 1)%Z;
                      logs := logs prev ++ [newLog w c market o executePrice];
                      secrets := secrets prev |}) t))
    | Rejected eMsg =>
        if isAuthError eMsg then
          addEvent (Text "FIX: 3. Ensure you are using the Proxy Wallet address if using the Relayer.") ERROR
            (addEvent (Text "FIX: 2. Verify API Key, Secret, and Passphrase match your Polymarket settings exactly.") ERROR
               (addEvent (Text "FIX: 1. Go to 'Vault Keys' tab.") ERROR
                  (addEvent (Text "AUTH ERROR: API Key Rejected by Polymarket.") ERROR t)))
        else addEvent (Text ("Entry Execution Failed: " ++ eMsg)) ERROR t
    end in
  setIsExecuting false (setProcessingTrade false t').

(** Entry evaluation: cooldown gate, candidate side, buy limit, BUY. *)
Definition entryLogic (w : World) (c : Closure) (market : Market)
  (s : TradingSecrets) (q : Quotes) (t : Terminal) : Terminal * list Order :=
  if (nowAtEntry w - lastTradeTimeRef t <? COOLDOWN_MS)%Z then (t, [])
  else
    let t0 :=
      addEvent (AlphaAnalysis (modelProb c) (yesEdge (modelProb c) q)
                  (noEdge (modelProb c) q)) INFO t in
    match entryCandidate (risk c) (modelProb c) q with
    | None => (t0, [])
    | Some (o, executePrice) =>
        let n := currentBuys market (logs (botStatus t0)) in
        if Js.geb (Js.ofNat n) (maxBuyCountPerMarket (risk c)) then
          (addEvent (BuyLimitReached n (maxBuyCountPerMarket (risk c))) WARN t0, [])
        else
          let ord := buyOrder s market (risk c) o executePrice in
          let t1 := beginBuy (risk c) o executePrice t0 in
          (endBuy w c market o executePrice (placeOrderWithClient w ord) t1, [ord])
    end.

(** The halting condition on the trading context. *)
Definition notConfigured (c : Closure) (s : TradingSecrets) : bool :=
  String.eqb (proxyAddress s) "" || negb (isConfigured s)
  || negb (apiCreds c) || negb (signer c).

(** The body of the tick once the order books are there. *)
Definition tickBody (w : World) (c : Closure) (market : Market)
  (s : TradingSecrets) (open : list TradeLog.t) (t : Terminal)
  : Terminal * list Order :=
  let q := quotes (fetchOrderBook w (nth_error (clobTokenIds market) 0))
                  (fetchOrderBook w (nth_error (clobTokenIds market) 1)) in
  let t1 := addEvent (ClobDepth (bestYesAsk q) (bestNoAsk q)) INFO t in
  let (t2, sells) :=
    if (0 <? List.length open)%nat then
      exitLoop w s market (risk c) q open
        (addEvent (CheckingPositions (List.length open)) INFO t1)
    else (t1, []) in
  let (t3, buys) := entryLogic w c market s q t2 in
  (t3, sells ++ buys).

(** [runEngine], one tick run to its end: the new state and the orders
    submitted, in order. *)
Definition runEngine (w : World) (c : Closure) (t : Terminal)
  : Terminal * list Order :=
  if negb (isActive (botStatus t)) then (t, [])
  else
    match selectedMarket c with
    | None => (t, [])
    | Some market =>
        let s := secrets (botStatus t) in
        if notConfigured c s then
          (addEvent (Text "Engine halted: Wallet or credentials not configured.") ERROR
             (setBotStatus (withActive false) t), [])
        else if processingTradeRef t then
          (addEvent (Text "Skipping tick: Trade execution in progress.") WARN t, [])
        else
          let t1 :=
            addEvent (Text ("[TICK] Analyzing Market: "
                            ++ String.substring 0 8 (id market) ++ "...")) INFO t in
          let open := openTrades market (logs (botStatus t1)) in
          let t2 := addEvent (Text "Fetching CLOB OrderBooks...") INFO t1 in
          tickBody w c market s open t2
    end.

(** ** The tick as an async function

    [runEngine] is suspended at each [await] and other callbacks run in
    between.  A tick is cut at its awaits: the order-book fetch, each
    take-profit submission and the entry submission.  Between two awaits
    the code runs without interruption. *)

Inductive Pending :=
| AwaitBooks (c : Closure) (market : Market) (s : TradingSecrets)
    (open : list TradeLog.t)
| AwaitSell (c : Closure) (market : Market) (s : TradingSecrets) (q : Quotes)
    (trade : TradeLog.t) (rest : list TradeLog.t)
| AwaitBuy (c : Closure) (market : Market) (s : TradingSecrets) (o : Outcome)
    (executePrice : float).

(** From the timer firing to the first await. *)
Definition startTick (c : Closure) (t : Terminal) : Terminal * option Pending :=
  if negb (isActive (botStatus t)) then (t, None)
  else
    match selectedMarket c with
    | None => (t, None)
    | Some market =>
        let s := secrets (botStatus t) in
        if notConfigured c s then
          (addEvent (Text "Engine halted: Wallet or credentials not configured.") ERROR
             (setBotStatus (withActive false) t), None)
        else if processingTradeRef t then
          (addEvent (Text "Skipping tick: Trade execution in progress.") WARN t, None)
        else
          let t1 :=
            addEvent (Text ("[TICK] Analyzing Market: "
                            ++ String.substring 0 8 (id market) ++ "...")) INFO t in
          let open := openTrades market (logs (botStatus t1)) in
          let t2 := addEvent (Text "Fetching CLOB OrderBooks...") INFO t1 in
          (t2, Some (AwaitBooks c market s open))
    end.

(** Entry evaluation up to the submission of the BUY. *)
Definition entryStep (w : World) (c : Closure) (market : Market)
  (s : TradingSecrets) (q : Quotes) (t : Terminal)
  : Terminal * option Pending * list Order :=
  if (nowAtEntry w - lastTradeTimeRef t <? COOLDOWN_MS)%Z then (t, None, [])
  else
    let t0 :=
      addEvent (AlphaAnalysis (modelProb c) (yesEdge (modelProb c) q)
                  (noEdge (modelProb c) q)) INFO t in
    match entryCandidate (risk c) (modelProb c) q with
    | None => (t0, None, [])
    | Some (o, executePrice) =>
        let n := currentBuys market (logs (botStatus t0)) in
        if Js.geb (Js.ofNat n) (maxBuyCountPerMarket (risk c)) then
          (addEvent (BuyLimitReached n (maxBuyCountPerMarket (risk c))) WARN t0,
           None, [])
        else
          (beginBuy (risk c) o executePrice t0,
           Some (AwaitBuy c market s o executePrice),
           [buyOrder s market (risk c) o executePrice])
    end.

(** The exit loop up to the next submission of a SELL, or through to the
    entry evaluation when no position is due any more. *)
Fixpoint exitStep (w : World) (c : Closure) (market : Market)
  (s : TradingSecrets) (q : Quotes) (trades : list TradeLog.t) (t : Terminal)
  : Terminal * option Pending * list Order :=
  match trades with
  | [] => entryStep w c market s q t
  | trade :: rest =>
      if takeProfitDue (risk c) q trade then
        (beginSell (risk c) q trade t,
         Some (AwaitSell c market s q trade rest),
         [sellOrder s market (risk c) q trade])
      else exitStep w c market s q rest t
  end.

(** The awaited promise settles with what [w] holds; the tick runs on to
    its next await or to its end. *)
Definition resume (w : World) (p : Pending) (t : Terminal)
  : Terminal * option Pending * list Order :=
  match p with
  | AwaitBooks c market s open =>
      let q := quotes (fetchOrderBook w (nth_error (clobTokenIds market) 0))
                      (fetchOrderBook w (nth_error (clobTokenIds market) 1)) in
      let t1 := addEvent (ClobDepth (bestYesAsk q) (bestNoAsk q)) INFO t in
      exitStep w c market s q open
        (if (0 <? List.length open)%nat
         then addEvent (CheckingPositions (List.length open)) INFO t1
         else t1)
  | AwaitSell c market s q trade rest =>
      exitStep w c market s q rest
        (endSell (risk c) trade
           (placeOrderWithClient w (sellOrder s market (risk c) q trade)) t)
  | AwaitBuy c market s o executePrice =>
      (endBuy w c market o executePrice
         (placeOrderWithClient w (buyOrder s market (risk c) o executePrice)) t,
       None, [])
  end.

(** The terminal with its suspended ticks and the orders submitted so far. *)
Record Machine := {
  terminal : Terminal;
  suspended : list Pending;
  submitted : list Order
}.

(** What happens to the terminal: the interval timer calls [runEngine]
    with the closure [c] of the current render, or the promise awaited by
    the [k]-th suspended tick settles with what [w] holds. *)
Inductive Input :=
| TimerFires (c : Closure)
| Resolves (k : nat) (w : World).

Definition optList {A : Type} (o : option A) : list A :=
  match o with
  | Some a => [a]
  | None => []
  end.

Definition machineStep (m : Machine) (i : Input) : Machine :=
  match i with
  | TimerFires c =>
      let (t, p) := startTick c (terminal m) in
      {| terminal := t;
         suspended := suspended m ++ optList p;
         submitted := submitted m |}
  | Resolves k w =>
      match nth_error (suspended m) k with
      | None => m
      | Some p =>
          let '(t, p', os) := resume w p (terminal m) in
          {| terminal := t;
             suspended := firstn k (suspended m) ++ optList p'
                          ++ skipn (S k) (suspended m);
             submitted := submitted m ++ os |}
      end
  end.

Definition machineRun (m : Machine) (inputs : list Input) : Machine :=
  fold_left machineStep inputs m.

Definition awaitsOrder (p : Pending) : bool :=
  match p with
  | AwaitBooks _ _ _ _ => false
  | AwaitSell _ _ _ _ _ _ => true
  | AwaitBuy _ _ _ _ _ => true
  end.

(** The order submissions whose promise has not settled yet. *)
Definition ordersInFlight (m : Machine) : nat :=
  List.length (filter awaitsOrder (suspended m)).

(** ** Vocabulary of the statements *)

Definition isBuy (o : Order) : bool := Side_eqb (orderSide o) BUY.

Definition buyOrders (os : list Order) : list Order := filter isBuy os.

Definition isFilled (res : OrderResult) : bool :=
  match res with
  | Filled => true
  | Rejected _ => false
  end.

(** The positions of [trades] whose take-profit SELL is submitted and
    confirmed under [w]. *)
Definition filledExits (w : World) (s : TradingSecrets) (market : Market)
  (r : RiskConfig) (q : Quotes) (trades : list TradeLog.t) : list TradeLog.t :=
  filter (fun trade =>
            takeProfitDue r q trade
            && isFilled (placeOrderWithClient w (sellOrder s market r q trade)))
         trades.

Definition sharesId (l : TradeLog.t) (trades : list TradeLog.t) : bool :=
  existsb (fun trade => String.eqb (TradeLog.id l) (TradeLog.id trade)) trades.


(** A sequence of ticks, each run to its end before the next fires. *)
Definition runTicks (ticks : list (World * Closure)) (t : Terminal) : Terminal :=
  fold_left (fun t' wc => fst (runEngine (fst wc) (snd wc) t')) ticks t.

(** *** Phases of a tick *)

(** The preconditions of the tick body: engine active, trading context
    configured, lock free. *)
Definition ready (c : Closure) (t : Terminal) : Prop :=
  isActive (botStatus t) = true
  /\ notConfigured c (secrets (botStatus t)) = false
  /\ processingTradeRef t = false.

Definition tickQuotes (w : World) (market : Market) : Quotes :=
  quotes (fetchOrderBook w (nth_error (clobTokenIds market) 0))
         (fetchOrderBook w (nth_error (clobTokenIds market) 1)).

(** The state in which the exit loop of a tick starts. *)
Definition atExits (w : World) (market : Market) (t : Terminal) : Terminal :=
  let q := tickQuotes w market in
  let t2 :=
    addEvent (ClobDepth (bestYesAsk q) (bestNoAsk q)) INFO
      (addEvent (Text "Fetching CLOB OrderBooks...") INFO
         (addEvent (Text ("[TICK] Analyzing Market: "
                          ++ String.substring 0 8 (id market) ++ "...")) INFO t)) in
  if (0 <? List.length (openTrades market (logs (botStatus t))))%nat
  then addEvent (CheckingPositions
                   (List.length (openTrades market (logs (botStatus t))))) INFO t2
  else t2.

(** The state in which the entry evaluation of a tick starts. *)
Definition atEntry (w : World) (c : Closure) (market : Market) (t : Terminal)
  : Terminal :=
  fst (exitLoop w (secrets (botStatus t)) market (risk c) (tickQuotes w market)
         (openTrades market (logs (botStatus t))) (atExits w market t)).

(** ** Worked scenarios: the figures of the specification *)

Module Example.

Definition market : Market :=
  {| id := "0x5eed0001";
     question := "Will BTC be above $100,000 at 15:00?";
     clobTokenIds := ["token-yes"%string; "token-no"%string] |}.

(** The initial [risk] of the component. *)
Definition risk0 : RiskConfig :=
  {| maxPositionSize := 10;
     edgeThreshold := 3.0;
     maxTradesPerSeries := 5;
     volatilityLookback := 60;
     minProbThreshold := 80;
     takeProfitPct := 20;
     sellAmountPct := 100;
     directionBias := BOTH;
     maxBuyCountPerMarket := 3 |}.

Definition closure (r : RiskConfig) (p : float) : Closure :=
  {| selectedMarket := Some market;
     risk := r;
     modelProb := p;
     btcPrice := 100500;
     btcVol := 5;
     apiCreds := true;
     signer := true |}.

Definition terminal0 (ls : list TradeLog.t) (lastTrade : Z) : Terminal :=
  {| botStatus :=
       {| isActive := true;
          tradesCount := Z.of_nat (List.length ls);
          logs := ls;
          secrets := {| proxyAddress := "0xproxy"; isConfigured := true |} |};
     lastTradeTimeRef := lastTrade;
     processingTradeRef := false;
     isExecuting := false;
     systemEvents := [] |}.

Definition book (bid ask : float) : OrderBook :=
  {| bids := [ {| price := bid; size := 100 |} ];
     asks := [ {| price := ask; size := 100 |} ] |}.

(** YES quoted 0.61 / 0.78, NO quoted 0.20 / 0.23. *)
Definition world (place : Order -> OrderResult) (now : Z) : World :=
  {| fetchOrderBook :=
       fun token =>
         match token with
         | Some "token-yes"%string => book 0.61 0.78
         | _ => book 0.20 0.23
         end;
     placeOrderWithClient := place;
     nowAtEntry := now;
     nowAtLog := (now + 800)%Z;
     nowAtConfirm := (now + 801)%Z;
     randomId := "k3x9qa" |}.

Definition position (ident : string) (o : Outcome) (entry : float) (st : Status)
  : TradeLog.t :=
  {| TradeLog.id := ident;
     TradeLog.timestamp := 1700000000000;
     TradeLog.marketId := "0x5eed0001";
     TradeLog.question := "Will BTC be above $100,000 at 15:00?";
     TradeLog.outcome := o;
     TradeLog.side := BUY;
     TradeLog.entryPrice := entry;
     TradeLog.size := 20;
     TradeLog.btcPriceAtEntry := 100400;
     TradeLog.modelProb := 84;
     TradeLog.marketProb := 50;
     TradeLog.volatilityAtEntry := 5;
     TradeLog.status := st |}.

Definition allFilled : Order -> OrderResult := fun _ => Filled.


End Example.

(** *** The ledger across a tick *)


(** The take-profit scenario of the specification run over two ticks:
    half the position sold leaves it PARTIAL, and the next tick, with the
    gain still above the trigger and the whole position to be sold, does
    not visit it again. *)
Definition halfThenAll : list (World * Closure) :=
  [ (Example.world Example.allFilled 1700000100000,
     Example.closure
       {| maxPositionSize := 10; edgeThreshold := 3.0; maxTradesPerSeries := 5;
          volatilityLookback := 60; minProbThreshold := 80; takeProfitPct := 20;
          sellAmountPct := 50; directionBias := BOTH;
          maxBuyCountPerMarket := 3 |} 50);
    (Example.world Example.allFilled 1700000105000,
     Example.closure Example.risk0 50) ].

(** *** Driving the machine *)

(** The machine holding one tick after a stretch of it has run. *)
Definition oneTick (seg : Terminal * option Pending * list Order)
  (os0 : list Order) : Machine :=
  {| terminal := fst (fst seg);
     suspended := optList (snd (fst seg));
     submitted := os0 ++ snd seg |}.

(** Resolve the awaits of the only suspended tick until it ends. *)
Fixpoint settle (fuel : nat) (w : World) (m : Machine) : Machine :=
  match fuel with
  | O => m
  | S n =>
      match suspended m with
      | [] => m
      | _ :: _ => settle n w (machineStep m (Resolves 0 w))
      end
  end.

(** *** Interleavings of ticks *)

(** No timer tick fires while a suspended tick is still waiting for its
    order books. *)
Fixpoint noFireDuringFetch (m : Machine) (inputs : list Input) : Prop :=
  match inputs with
  | [] => True
  | i :: rest =>
      match i with
      | TimerFires _ => forallb awaitsOrder (suspended m) = true
      | Resolves _ _ => True
      end
      /\ noFireDuringFetch (machineStep m i) rest
  end.

(** At most one tick is suspended, and the lock is set while it waits for
    an order. *)
Definition serialized (m : Machine) : Prop :=
  (List.length (suspended m) <= 1)%nat
  /\ (forall p, In p (suspended m) -> awaitsOrder p = true ->
                processingTradeRef (terminal m) = true).



(** *** Event texts *)



(** *** Binary64 values *)

(** [X] is a number of sign [sx]. *)
Definition signed (sx : bool) (X : spec_float) : Prop :=
  match X with
  | S754_zero s | S754_infinity s | S754_finite s _ _ => s = sx
  | S754_nan => False
  end.

Definition numeric (X : spec_float) : Prop := X <> S754_nan.

Definition finiteSF (X : spec_float) : Prop :=
  match X with S754_zero _ | S754_finite _ _ _ => True | _ => False end.

Definition positiveFinite (X : spec_float) : Prop :=
  match X with S754_finite false _ _ => True | _ => False end.

(** A number that is not NaN, and one whose sign bit is clear. *)
Definition isNumber (x : float) : Prop := numeric (Prim2SF x).
Definition nonNegative (x : float) : Prop := signed false (Prim2SF x).

(** *** Standard deviations *)

(** Sums run left to right from 0, as [reduce] does. *)
Definition total (l : list float) : float := fold_left (fun a b => a + b) l 0.

Definition mean (l : list float) : float := total l / Js.ofNat (List.length l).

Definition squaredDeviations (l : list float) : list float :=
  map (fun p => Js.square (p - mean l)) l.

(** The standard deviation of the values taken as the whole population:
    the squared deviations are divided by their number [n]. *)
Definition populationStdDev (l : list float) : float :=
  sqrt (total (squaredDeviations l) / Js.ofNat (List.length l)).

(** The sample standard deviation in the words of the specification: the
    squared deviations are divided by [n - 1]. *)
Definition sampleStdDev (l : list float) : float :=
  sqrt (total (squaredDeviations l) / Js.ofNat (List.length l - 1)).

Definition history (prices : list float) : list BitcoinService.PriceEntry :=
  map (fun p => {| BitcoinService.timestamp := 1700000000000;
                   BitcoinService.price := p |}) prices.

(** * Properties *)

(** ** The exit loop *)

Ltac exit_step IH w s market r q trade rest t :=
  cbn [exitLoop];
  destruct (takeProfitDue r q trade) eqn:Hdue;
  [ specialize (IH (endSell r trade
                      (placeOrderWithClient w (sellOrder s market r q trade))
                      (beginSell r q trade t)));
    destruct (exitLoop w s market r q rest
                (endSell r trade
                   (placeOrderWithClient w (sellOrder s market r q trade))
                   (beginSell r q trade t))) as [t3 os];
    cbn [fst snd] in *
  | specialize (IH t) ].

Lemma exitLoop_orders w s market r q trades t :
  snd (exitLoop w s market r q trades t)
  = map (sellOrder s market r q) (filter (takeProfitDue r q) trades).
Proof.
  revert t; induction trades as [|trade rest IH]; intros t.
  - reflexivity.
  - exit_step IH w s market r q trade rest t;
      cbn [filter]; rewrite Hdue; cbn [map]; congruence.
Qed.

Lemma endSell_lastTrade r trade res t :
  lastTradeTimeRef (endSell r trade res t) = lastTradeTimeRef t.
Proof. destruct res; reflexivity. Qed.

Lemma endSell_unlocks r trade res t :
  processingTradeRef (endSell r trade res t) = false.
Proof. destruct res; reflexivity. Qed.

Lemma endSell_logs r trade res t :
  logs (botStatus (endSell r trade res t))
  = if isFilled res then markSold r trade (logs (botStatus t))
    else logs (botStatus t).
Proof. destruct res; reflexivity. Qed.

Lemma endSell_frame r trade res t :
  isActive (botStatus (endSell r trade res t)) = isActive (botStatus t)
  /\ tradesCount (botStatus (endSell r trade res t)) = tradesCount (botStatus t)
  /\ secrets (botStatus (endSell r trade res t)) = secrets (botStatus t).
Proof. destruct res; repeat split; reflexivity. Qed.

Lemma exitLoop_lastTrade w s market r q trades t :
  lastTradeTimeRef (fst (exitLoop w s market r q trades t)) = lastTradeTimeRef t.
Proof.
  revert t; induction trades as [|trade rest IH]; intros t.
  - reflexivity.
  - exit_step IH w s market r q trade rest t.
    + rewrite IH, endSell_lastTrade. reflexivity.
    + exact IH.
Qed.

Lemma exitLoop_lock w s market r q trades t :
  processingTradeRef t = false ->
  processingTradeRef (fst (exitLoop w s market r q trades t)) = false.
Proof.
  revert t; induction trades as [|trade rest IH]; intros t Ht.
  - exact Ht.
  - exit_step IH w s market r q trade rest t.
    + apply IH, endSell_unlocks.
    + now apply IH.
Qed.

Lemma exitLoop_frame w s market r q trades t :
  isActive (botStatus (fst (exitLoop w s market r q trades t)))
  = isActive (botStatus t)
  /\ tradesCount (botStatus (fst (exitLoop w s market r q trades t)))
     = tradesCount (botStatus t)
  /\ secrets (botStatus (fst (exitLoop w s market r q trades t)))
     = secrets (botStatus t).
Proof.
  revert t; induction trades as [|trade rest IH]; intros t.
  - repeat split.
  - exit_step IH w s market r q trade rest t.
    + destruct IH as (A & B & C).
      destruct (endSell_frame r trade
                  (placeOrderWithClient w (sellOrder s market r q trade))
                  (beginSell r q trade t)) as (A' & B' & C').
      rewrite A, B, C, A', B', C'. repeat split.
    + exact IH.
Qed.

(** The ledger after the loop: the confirmed exits marked one after the
    other. *)
Lemma exitLoop_logs w s market r q trades t :
  logs (botStatus (fst (exitLoop w s market r q trades t)))
  = fold_left (fun ls trade => markSold r trade ls)
      (filledExits w s market r q trades) (logs (botStatus t)).
Proof.
  revert t; induction trades as [|trade rest IH]; intros t.
  - reflexivity.
  - unfold filledExits; cbn [filter]; fold (filledExits w s market r q rest).
    exit_step IH w s market r q trade rest t; cbn [andb].
    + rewrite IH, endSell_logs.
      destruct (placeOrderWithClient w (sellOrder s market r q trade));
        reflexivity.
    + exact IH.
Qed.

Lemma markSold_all r sold ls :
  fold_left (fun ls' trade => markSold r trade ls') sold ls
  = map (fun l => if sharesId l sold
                  then TradeLog.withStatus l (soldStatus r) else l) ls.
Proof.
  revert ls; induction sold as [|trade rest IH]; intros ls; cbn [fold_left].
  - unfold sharesId; cbn [existsb]. now rewrite map_id.
  - rewrite IH. unfold markSold. rewrite map_map. apply map_ext.
    intros l. unfold sharesId; cbn [existsb].
    destruct (String.eqb (TradeLog.id l) (TradeLog.id trade)); cbn [orb].
    + destruct (existsb _ rest); reflexivity.
    + reflexivity.
Qed.

(** ** Entry evaluation *)

Lemma Bias_eqb_eq a b : Bias_eqb a b = true <-> a = b.
Proof. destruct a, b; simpl; split; congruence. Qed.

Lemma yesTriggers_spec r p q :
  yesTriggers r p q = true
  <-> (directionBias r = BOTH \/ directionBias r = YES_ONLY)
      /\ (minProbThreshold r <=? p) = true
      /\ (edgeThreshold r <=? (p / 100 - bestYesAsk q) * 100) = true.
Proof.
  unfold yesTriggers, Js.geb, yesEdge.
  rewrite !andb_true_iff, orb_true_iff, !Bias_eqb_eq. tauto.
Qed.

Lemma noTriggers_spec r p q :
  noTriggers r p q = true
  <-> (directionBias r = BOTH \/ directionBias r = NO_ONLY)
      /\ (minProbThreshold r <=? 100 - p) = true
      /\ (edgeThreshold r <=? ((100 - p) / 100 - bestNoAsk q) * 100) = true.
Proof.
  unfold noTriggers, Js.geb, noEdge.
  rewrite !andb_true_iff, orb_true_iff, !Bias_eqb_eq. tauto.
Qed.

Lemma entryLogic_orders w c market s q t :
  snd (entryLogic w c market s q t)
  = if (nowAtEntry w - lastTradeTimeRef t <? COOLDOWN_MS)%Z then []
    else
      match entryCandidate (risk c) (modelProb c) q with
      | None => []
      | Some (o, executePrice) =>
          if Js.geb (Js.ofNat (currentBuys market (logs (botStatus t))))
               (maxBuyCountPerMarket (risk c))
          then []
          else [buyOrder s market (risk c) o executePrice]
      end.
Proof.
  unfold entryLogic.
  destruct (nowAtEntry w - lastTradeTimeRef t <? COOLDOWN_MS)%Z; [reflexivity|].
  destruct (entryCandidate (risk c) (modelProb c) q) as [[o px]|]; [|reflexivity].
  cbn [addEvent botStatus].
  destruct (Js.geb _ _); reflexivity.
Qed.

Lemma endBuy_lastTrade w c market o px res t :
  lastTradeTimeRef (endBuy w c market o px res t)
  = if isFilled res then nowAtConfirm w else lastTradeTimeRef t.
Proof.
  destruct res as [|m]; unfold endBuy; [reflexivity|].
  destruct (isAuthError m); reflexivity.
Qed.

Lemma endBuy_logs w c market o px res t :
  logs (botStatus (endBuy w c market o px res t))
  = if isFilled res then logs (botStatus t) ++ [newLog w c market o px]
    else logs (botStatus t).
Proof.
  destruct res as [|m]; unfold endBuy; [reflexivity|].
  destruct (isAuthError m); reflexivity.
Qed.

Lemma endBuy_unlocks w c market o px res t :
  processingTradeRef (endBuy w c market o px res t) = false.
Proof. reflexivity. Qed.

Lemma endBuy_active w c market o px res t :
  isActive (botStatus (endBuy w c market o px res t)) = isActive (botStatus t).
Proof.
  destruct res as [|m]; unfold endBuy; [reflexivity|].
  destruct (isAuthError m); reflexivity.
Qed.

Lemma entryLogic_lastTrade w c market s q t :
  lastTradeTimeRef (fst (entryLogic w c market s q t))
  = match snd (entryLogic w c market s q t) with
    | ord :: _ =>
        if isFilled (placeOrderWithClient w ord) then nowAtConfirm w
        else lastTradeTimeRef t
    | [] => lastTradeTimeRef t
    end.
Proof.
  unfold entryLogic.
  destruct (nowAtEntry w - lastTradeTimeRef t <? COOLDOWN_MS)%Z; [reflexivity|].
  destruct (entryCandidate (risk c) (modelProb c) q) as [[o px]|]; [|reflexivity].
  destruct (Js.geb _ _); [reflexivity|].
  cbn [fst snd]. rewrite endBuy_lastTrade. reflexivity.
Qed.

Lemma entryLogic_logs w c market s q t :
  logs (botStatus (fst (entryLogic w c market s q t)))
  = match snd (entryLogic w c market s q t), entryCandidate (risk c) (modelProb c) q with
    | ord :: _, Some (o, px) =>
        if isFilled (placeOrderWithClient w ord)
        then logs (botStatus t) ++ [newLog w c market o px]
        else logs (botStatus t)
    | _, _ => logs (botStatus t)
    end.
Proof.
  unfold entryLogic.
  destruct (nowAtEntry w - lastTradeTimeRef t <? COOLDOWN_MS)%Z.
  { reflexivity. }
  destruct (entryCandidate (risk c) (modelProb c) q) as [[o px]|]; [|reflexivity].
  destruct (Js.geb _ _); [reflexivity|].
  cbn [fst snd]. rewrite endBuy_logs. reflexivity.
Qed.

Lemma entryLogic_lock w c market s q t :
  processingTradeRef t = false ->
  processingTradeRef (fst (entryLogic w c market s q t)) = false.
Proof.
  intros Ht. unfold entryLogic.
  destruct (nowAtEntry w - lastTradeTimeRef t <? COOLDOWN_MS)%Z; [exact Ht|].
  destruct (entryCandidate (risk c) (modelProb c) q) as [[o px]|]; [|exact Ht].
  destruct (Js.geb _ _); [exact Ht|].
  cbn [fst]. apply endBuy_unlocks.
Qed.

Lemma entryLogic_active w c market s q t :
  isActive (botStatus (fst (entryLogic w c market s q t)))
  = isActive (botStatus t).
Proof.
  unfold entryLogic.
  destruct (nowAtEntry w - lastTradeTimeRef t <? COOLDOWN_MS)%Z; [reflexivity|].
  destruct (entryCandidate (risk c) (modelProb c) q) as [[o px]|]; [|reflexivity].
  destruct (Js.geb _ _); [reflexivity|].
  cbn [fst]. rewrite endBuy_active. reflexivity.
Qed.

(** ** The tick *)

Lemma runEngine_ready w c market t :
  selectedMarket c = Some market ->
  ready c t ->
  runEngine w c t
  = (fst (entryLogic w c market (secrets (botStatus t)) (tickQuotes w market)
            (atEntry w c market t)),
     map (sellOrder (secrets (botStatus t)) market (risk c) (tickQuotes w market))
       (filter (takeProfitDue (risk c) (tickQuotes w market))
          (openTrades market (logs (botStatus t))))
     ++ snd (entryLogic w c market (secrets (botStatus t)) (tickQuotes w market)
               (atEntry w c market t))).
Proof.
  intros Hm (Ha & Hc & Hl).
  unfold runEngine. rewrite Ha, Hm. cbn [negb]. rewrite Hc, Hl.
  unfold tickBody, atEntry, atExits. cbn [addEvent botStatus].
  fold (tickQuotes w market).
  rewrite <- exitLoop_orders
    with (w := w)
         (t := atExits w market t).
  unfold atExits. cbn [addEvent botStatus].
  destruct (openTrades market (logs (botStatus t))) as [|tr open'].
  - cbn [List.length Nat.ltb Nat.leb exitLoop fst snd app].
    destruct (entryLogic _ _ _ _ _ _); reflexivity.
  - cbn [List.length Nat.ltb Nat.leb].
    destruct (exitLoop _ _ _ _ _ _ _) as [t2 sells]. cbn [fst snd].
    destruct (entryLogic _ _ _ _ _ _); reflexivity.
Qed.

(** A tick that does not reach its body leaves ledger, lock and last-trade
    time as they are and submits nothing. *)
Lemma runEngine_not_ready w c t :
  (isActive (botStatus t) = false \/ selectedMarket c = None
   \/ notConfigured c (secrets (botStatus t)) = true
   \/ processingTradeRef t = true) ->
  snd (runEngine w c t) = []
  /\ logs (botStatus (fst (runEngine w c t))) = logs (botStatus t)
  /\ lastTradeTimeRef (fst (runEngine w c t)) = lastTradeTimeRef t
  /\ processingTradeRef (fst (runEngine w c t)) = processingTradeRef t.
Proof.
  intros H. unfold runEngine. cbv zeta.
  destruct (isActive (botStatus t)); cbn [negb]; [|now repeat split].
  destruct (selectedMarket c) as [market|]; [|now repeat split].
  destruct (notConfigured c (secrets (botStatus t))); [now repeat split|].
  destruct (processingTradeRef t) eqn:Hl; [now repeat split|].
  destruct H as [H|[H|[H|H]]]; discriminate.
Qed.

Lemma runEngine_cases c t :
  (exists market, selectedMarket c = Some market /\ ready c t)
  \/ (isActive (botStatus t) = false \/ selectedMarket c = None
      \/ notConfigured c (secrets (botStatus t)) = true
      \/ processingTradeRef t = true).
Proof.
  unfold ready.
  destruct (isActive (botStatus t)); [|now right; left].
  destruct (selectedMarket c) as [market|]; [|now right; right; left].
  destruct (notConfigured c (secrets (botStatus t))); [now right; right; right; left|].
  destruct (processingTradeRef t); [now right; right; right; right|].
  left. exists market. repeat split.
Qed.

Lemma buyOrders_sells s market r q trades :
  buyOrders (map (sellOrder s market r q) trades) = [].
Proof. induction trades as [|trade rest IH]; [reflexivity|exact IH]. Qed.

Lemma buyOrders_entry w c market s q t :
  buyOrders (snd (entryLogic w c market s q t)) = snd (entryLogic w c market s q t).
Proof.
  rewrite entryLogic_orders.
  destruct (nowAtEntry w - lastTradeTimeRef t <? COOLDOWN_MS)%Z; [reflexivity|].
  destruct (entryCandidate (risk c) (modelProb c) q) as [[o px]|]; [|reflexivity].
  destruct (Js.geb _ _); reflexivity.
Qed.

Lemma runEngine_buys w c market t :
  selectedMarket c = Some market ->
  ready c t ->
  buyOrders (snd (runEngine w c t))
  = snd (entryLogic w c market (secrets (botStatus t)) (tickQuotes w market)
           (atEntry w c market t)).
Proof.
  intros Hm Hr. rewrite (runEngine_ready w c market t Hm Hr). cbn [snd].
  unfold buyOrders. rewrite filter_app.
  fold (buyOrders (map (sellOrder (secrets (botStatus t)) market (risk c)
                          (tickQuotes w market))
                     (filter (takeProfitDue (risk c) (tickQuotes w market))
                        (openTrades market (logs (botStatus t)))))).
  rewrite buyOrders_sells. cbn [app]. apply buyOrders_entry.
Qed.

Lemma atEntry_lastTrade w c market t :
  lastTradeTimeRef (atEntry w c market t) = lastTradeTimeRef t.
Proof.
  unfold atEntry. rewrite exitLoop_lastTrade. unfold atExits.
  destruct (0 <? _)%nat; reflexivity.
Qed.

Lemma atExits_logs w market t :
  logs (botStatus (atExits w market t)) = logs (botStatus t).
Proof. unfold atExits. destruct (0 <? _)%nat; reflexivity. Qed.

Lemma atExits_lock w market t :
  processingTradeRef (atExits w market t) = processingTradeRef t.
Proof. unfold atExits. destruct (0 <? _)%nat; reflexivity. Qed.

Lemma atExits_active w market t :
  isActive (botStatus (atExits w market t)) = isActive (botStatus t).
Proof. unfold atExits. destruct (0 <? _)%nat; reflexivity. Qed.

(** The ledger when entry evaluation starts: the confirmed exits marked. *)
Lemma atEntry_logs w c market t :
  logs (botStatus (atEntry w c market t))
  = map (fun l =>
           if sharesId l
                (filledExits w (secrets (botStatus t)) market (risk c)
                   (tickQuotes w market)
                   (openTrades market (logs (botStatus t))))
           then TradeLog.withStatus l (soldStatus (risk c)) else l)
      (logs (botStatus t)).
Proof.
  unfold atEntry. rewrite exitLoop_logs, markSold_all, atExits_logs. reflexivity.
Qed.

Lemma currentBuys_app market ls ls' :
  currentBuys market (ls ++ ls') = (currentBuys market ls + currentBuys market ls')%nat.
Proof. unfold currentBuys. now rewrite filter_app, length_app. Qed.

(** The count of BUY entries does not look at the status. *)
Lemma currentBuys_status market (f : TradeLog.t -> bool) (st : Status) ls :
  currentBuys market
    (map (fun l => if f l then TradeLog.withStatus l st else l) ls)
  = currentBuys market ls.
Proof.
  unfold currentBuys. induction ls as [|l ls IH]; [reflexivity|].
  cbn [map filter].
  replace (String.eqb
             (TradeLog.marketId (if f l then TradeLog.withStatus l st else l))
             (id market)
           && Side_eqb
                (TradeLog.side (if f l then TradeLog.withStatus l st else l)) BUY)
    with (String.eqb (TradeLog.marketId l) (id market)
          && Side_eqb (TradeLog.side l) BUY)
    by (destruct (f l); reflexivity).
  destruct (String.eqb (TradeLog.marketId l) (id market)
            && Side_eqb (TradeLog.side l) BUY); cbn [List.length]; now rewrite IH.
Qed.

Lemma atEntry_currentBuys w c market market' t :
  currentBuys market' (logs (botStatus (atEntry w c market t)))
  = currentBuys market' (logs (botStatus t)).
Proof. rewrite atEntry_logs. apply currentBuys_status. Qed.

(** ** C1 *)

(** C1.  With [yesEdge = (modelProbability/100 - bestYesAsk) * 100] and
    [noEdge = ((100 - modelProbability)/100 - bestNoAsk) * 100], the YES
    side is the candidate exactly when the bias is BOTH or YES_ONLY, the
    model probability reaches the threshold and [yesEdge] reaches the edge
    threshold; the NO side is the candidate exactly when YES is not and the
    symmetric conditions hold; there is no candidate otherwise.  A tick
    submits at most one BUY order, and that order is the one of the
    candidate side. *)
Theorem entry_trigger_one_side (r : RiskConfig) (p : float) (q : Quotes) :
  let yesEdge := (p / 100 - bestYesAsk q) * 100 in
  let noEdge := ((100 - p) / 100 - bestNoAsk q) * 100 in
  let yes :=
    (directionBias r = BOTH \/ directionBias r = YES_ONLY)
    /\ (minProbThreshold r <=? p) = true
    /\ (edgeThreshold r <=? yesEdge) = true in
  let no :=
    (directionBias r = BOTH \/ directionBias r = NO_ONLY)
    /\ (minProbThreshold r <=? 100 - p) = true
    /\ (edgeThreshold r <=? noEdge) = true in
  (entryCandidate r p q = Some (YES, bestYesAsk q) <-> yes)
  /\ (entryCandidate r p q = Some (NO, bestNoAsk q) <-> ~ yes /\ no)
  /\ (entryCandidate r p q = None <-> ~ yes /\ ~ no)
  /\ (forall w c t, (List.length (buyOrders (snd (runEngine w c t))) <= 1)%nat)
  /\ (forall w c t o,
        In o (snd (runEngine w c t)) -> orderSide o = BUY ->
        exists market side px,
          selectedMarket c = Some market
          /\ entryCandidate (risk c) (modelProb c) (tickQuotes w market)
             = Some (side, px)
          /\ o = buyOrder (secrets (botStatus t)) market (risk c) side px).
Proof.
  cbv zeta.
  pose proof (yesTriggers_spec r p q) as HY.
  pose proof (noTriggers_spec r p q) as HN.
  unfold entryCandidate.
  split; [|split; [|split; [|split]]].
  - rewrite <- HY.
    destruct (yesTriggers r p q), (noTriggers r p q); intuition congruence.
  - rewrite <- HY, <- HN.
    destruct (yesTriggers r p q), (noTriggers r p q); intuition congruence.
  - rewrite <- HY, <- HN.
    destruct (yesTriggers r p q), (noTriggers r p q); intuition congruence.
  - intros w c t.
    destruct (runEngine_cases c t) as [(market & Hm & Hr)|Hn'].
    + rewrite (runEngine_buys w c market t Hm Hr), entryLogic_orders.
      destruct (_ <? _)%Z; [cbn; lia|].
      destruct (entryCandidate _ _ _) as [[o px]|]; [|cbn; lia].
      destruct (Js.geb _ _); cbn; lia.
    + destruct (runEngine_not_ready w c t Hn') as (Hnil & _).
      rewrite Hnil. cbn; lia.
  - intros w c t o Hin Hside.
    destruct (runEngine_cases c t) as [(market & Hm & Hr)|Hn'].
    + assert (Hb : In o (buyOrders (snd (runEngine w c t)))).
      { unfold buyOrders. apply filter_In. split; [exact Hin|].
        unfold isBuy. now rewrite Hside. }
      rewrite (runEngine_buys w c market t Hm Hr), entryLogic_orders in Hb.
      destruct (_ <? _)%Z; [destruct Hb|].
      destruct (entryCandidate (risk c) (modelProb c) (tickQuotes w market))
        as [[side px]|] eqn:Hc; [|destruct Hb].
      destruct (Js.geb _ _); [destruct Hb|].
      destruct Hb as [<-|[]].
      exists market, side, px. repeat split; assumption.
    + destruct (runEngine_not_ready w c t Hn') as (Hnil & _).
      rewrite Hnil in Hin. destruct Hin.
Qed.

(** The entry scenario of the specification: model 85 against a threshold
    of 80, YES ask 0.78, edge threshold 3: a BUY of the YES token at the
    ask plus 0.01, for [maxPositionSize / 0.78] units. *)
Lemma entry_scenario :
  entryCandidate Example.risk0 85
    (tickQuotes (Example.world Example.allFilled 1700000100000) Example.market)
  = Some (YES, 0.78)
  /\ snd (runEngine (Example.world Example.allFilled 1700000100000)
            (Example.closure Example.risk0 85) (Example.terminal0 [] 0))
     = [ {| proxy := "0xproxy";
            tokenId := Some "token-yes"%string;
            limitPrice := 0.78 + 0.01;
            orderSize := 10 / 0.78;
            orderSide := BUY |} ].
Proof. split; vm_compute; reflexivity. Qed.

(** ** C3 *)

Lemma runEngine_currentBuys_mono w c t market' :
  (currentBuys market' (logs (botStatus t))
   <= currentBuys market' (logs (botStatus (fst (runEngine w c t)))))%nat.
Proof.
  destruct (runEngine_cases c t) as [(market & Hm & Hr)|Hn'].
  - rewrite (runEngine_ready w c market t Hm Hr). cbn [fst].
    rewrite entryLogic_logs.
    destruct (snd (entryLogic _ _ _ _ _ _)) as [|ord ?].
    + rewrite atEntry_currentBuys. lia.
    + destruct (entryCandidate _ _ _) as [[o px]|].
      * destruct (isFilled _).
        -- rewrite currentBuys_app, atEntry_currentBuys. lia.
        -- rewrite atEntry_currentBuys. lia.
      * rewrite atEntry_currentBuys. lia.
  - destruct (runEngine_not_ready w c t Hn') as (_ & Hl & _).
    rewrite Hl. lia.
Qed.

(** C3.  When the BUY entries of the selected market already number
    [maxBuyCountPerMarket] or more, the tick submits no BUY order, whatever
    the model probability and the quotes (so neither the side that
    triggers nor the other one is bought), and the count is as before.
    The count runs over the entries of every status, and no tick lowers
    it. *)
Theorem buy_limit_blocks_entry (w : World) (c : Closure) (t : Terminal)
  (market : Market) :
  selectedMarket c = Some market ->
  (maxBuyCountPerMarket (risk c)
   <=? Js.ofNat (currentBuys market (logs (botStatus t)))) = true ->
  buyOrders (snd (runEngine w c t)) = []
  /\ currentBuys market (logs (botStatus (fst (runEngine w c t))))
     = currentBuys market (logs (botStatus t))
  /\ (forall (f : TradeLog.t -> bool) (st : Status) (ls : list TradeLog.t),
        currentBuys market
          (map (fun l => if f l then TradeLog.withStatus l st else l) ls)
        = currentBuys market ls)
  /\ (forall w' c' t',
        (currentBuys market (logs (botStatus t'))
         <= currentBuys market (logs (botStatus (fst (runEngine w' c' t')))))%nat).
Proof.
  intros Hm Hlimit.
  split; [|split; [|split]].
  - destruct (runEngine_cases c t) as [(market' & Hm' & Hr)|Hn'].
    + assert (market' = market) by congruence. subst market'.
      rewrite (runEngine_buys w c market t Hm Hr), entryLogic_orders.
      destruct (_ <? _)%Z; [reflexivity|].
      destruct (entryCandidate _ _ _) as [[o px]|]; [|reflexivity].
      rewrite atEntry_currentBuys. unfold Js.geb. now rewrite Hlimit.
    + destruct (runEngine_not_ready w c t Hn') as (Hnil & _).
      now rewrite Hnil.
  - destruct (runEngine_cases c t) as [(market' & Hm' & Hr)|Hn'].
    + assert (market' = market) by congruence. subst market'.
      rewrite (runEngine_ready w c market t Hm Hr). cbn [fst].
      rewrite entryLogic_logs, entryLogic_orders.
      destruct (_ <? _)%Z; [apply atEntry_currentBuys|].
      destruct (entryCandidate _ _ _) as [[o px]|]; [|apply atEntry_currentBuys].
      rewrite atEntry_currentBuys. unfold Js.geb. rewrite Hlimit.
      apply atEntry_currentBuys.
    + destruct (runEngine_not_ready w c t Hn') as (_ & Hl & _).
      now rewrite Hl.
  - intros f st ls. apply currentBuys_status.
  - intros w' c' t'. apply runEngine_currentBuys_mono.
Qed.

(** Three BUY entries, one of them CLOSED and one PARTIAL, limit 3, model
    probability 85 against a YES ask of 0.78: no BUY. *)
Lemma buy_limit_blocks_entry_witness :
  buyOrders
    (snd (runEngine (Example.world Example.allFilled 1700000100000)
            (Example.closure Example.risk0 85)
            (Example.terminal0
               [Example.position "a1" YES 0.70 CLOSED;
                Example.position "b2" YES 0.72 PARTIAL;
                Example.position "c3" YES 0.74 OPEN] 0))) = []
  /\ currentBuys Example.market
       (logs (botStatus
          (fst (runEngine (Example.world Example.allFilled 1700000100000)
                  (Example.closure Example.risk0 85)
                  (Example.terminal0
                     [Example.position "a1" YES 0.70 CLOSED;
                      Example.position "b2" YES 0.72 PARTIAL;
                      Example.position "c3" YES 0.74 OPEN] 0))))) = 3%nat.
Proof.
  destruct (buy_limit_blocks_entry
              (Example.world Example.allFilled 1700000100000)
              (Example.closure Example.risk0 85)
              (Example.terminal0
                 [Example.position "a1" YES 0.70 CLOSED;
                  Example.position "b2" YES 0.72 PARTIAL;
                  Example.position "c3" YES 0.74 OPEN] 0)
              Example.market) as (A & B & _).
  - reflexivity.
  - vm_compute. reflexivity.
  - split; [exact A|]. rewrite B. vm_compute. reflexivity.
Defined.

(** ** C5 *)



(** Two ticks five seconds apart, the first of which buys: the second
    submits nothing. *)
Lemma cooldown_two_ticks :
  map orderSide
    (snd (runEngine (Example.world Example.allFilled 1700000100000)
            (Example.closure Example.risk0 85) (Example.terminal0 [] 0)))
  = [BUY]
  /\ snd (runEngine (Example.world Example.allFilled 1700000105000)
            (Example.closure Example.risk0 85)
            (fst (runEngine (Example.world Example.allFilled 1700000100000)
                    (Example.closure Example.risk0 85)
                    (Example.terminal0 [] 0))))
     = [].
Proof. split; vm_compute; reflexivity. Qed.

(** ** C10 *)

(** C10.  The last-trade time is the same after exit evaluation as
    before it, whatever the take-profit SELLs and their results.  After
    the tick it is the time read on confirmation if a BUY was submitted
    and confirmed, and its old value in every other case, a rejected BUY
    included. *)
Theorem last_trade_time_only_after_buy (w : World) (c : Closure) (t : Terminal) :
  (forall market s r q trades,
     lastTradeTimeRef (fst (exitLoop w s market r q trades t))
     = lastTradeTimeRef t)
  /\ (forall market, lastTradeTimeRef (atEntry w c market t) = lastTradeTimeRef t)
  /\ lastTradeTimeRef (fst (runEngine w c t))
     = if existsb (fun o => isFilled (placeOrderWithClient w o))
            (buyOrders (snd (runEngine w c t)))
       then nowAtConfirm w
       else lastTradeTimeRef t.
Proof.
  split; [|split].
  - intros. apply exitLoop_lastTrade.
  - intros. apply atEntry_lastTrade.
  - destruct (runEngine_cases c t) as [(market & Hm & Hr)|Hn'].
    + rewrite (runEngine_buys w c market t Hm Hr).
      rewrite (runEngine_ready w c market t Hm Hr). cbn [fst].
      rewrite entryLogic_lastTrade, atEntry_lastTrade.
      destruct (snd (entryLogic _ _ _ _ _ _)) as [|ord rest] eqn:He;
        [reflexivity|].
      assert (rest = []) as ->.
      { rewrite entryLogic_orders in He.
        destruct (_ <? _)%Z; [discriminate|].
        destruct (entryCandidate _ _ _) as [[o px]|]; [|discriminate].
        destruct (Js.geb _ _); [discriminate|]. congruence. }
      cbn [existsb]. now rewrite orb_false_r.
    + destruct (runEngine_not_ready w c t Hn') as (Hnil & _ & Hl & _).
      rewrite Hnil, Hl. reflexivity.
Qed.

(** ** The ledger across a tick *)









(** ** C2 *)



(** ** C6 *)






Lemma partial_position_not_revisited :
  map TradeLog.status
    (logs (botStatus
       (runTicks (firstn 1 halfThenAll)
          (Example.terminal0 [Example.position "a1" YES 0.50 OPEN] 0))))
  = [PARTIAL]
  /\ runEngine (Example.world Example.allFilled 1700000105000)
       (Example.closure Example.risk0 50)
       (runTicks (firstn 1 halfThenAll)
          (Example.terminal0 [Example.position "a1" YES 0.50 OPEN] 0))
     = (addEvent (AlphaAnalysis 50 (-28.000000000000004) 27) INFO
          (addEvent (ClobDepth 0.78 0.23) INFO
             (addEvent (Text "Fetching CLOB OrderBooks...") INFO
                (addEvent (Text "[TICK] Analyzing Market: 0x5eed00...") INFO
                   (runTicks (firstn 1 halfThenAll)
                      (Example.terminal0
                         [Example.position "a1" YES 0.50 OPEN] 0))))),
        []).
Proof. split; vm_compute; reflexivity. Qed.


(** ** C4: the processing lock *)

(** A tick that finds the lock set stops at its start: it submits nothing
    and leaves the ledger, the lock and the last-trade time as they are.
    With the engine active and the trading context in place it only logs
    the skip. *)
Lemma locked_tick_is_skipped w c t :
  processingTradeRef t = true ->
  snd (startTick c t) = None
  /\ snd (runEngine w c t) = []
  /\ logs (botStatus (fst (runEngine w c t))) = logs (botStatus t)
  /\ lastTradeTimeRef (fst (runEngine w c t)) = lastTradeTimeRef t
  /\ processingTradeRef (fst (runEngine w c t)) = true
  /\ (forall market,
        isActive (botStatus t) = true ->
        selectedMarket c = Some market ->
        notConfigured c (secrets (botStatus t)) = false ->
        runEngine w c t
        = (addEvent (Text "Skipping tick: Trade execution in progress.") WARN t,
           [])).
Proof.
  intros Hl.
  destruct (runEngine_not_ready w c t) as (A & B & C & D); [auto|].
  split; [|split; [|split; [|split; [|split]]]]; auto; try congruence.
  - unfold startTick. destruct (isActive (botStatus t)); [|reflexivity].
    destruct (selectedMarket c); [|reflexivity]. cbn [negb].
    destruct (notConfigured _ _); [reflexivity|]. now rewrite Hl.
  - intros market Ha Hm Hc. unfold runEngine. now rewrite Ha, Hm, Hc, Hl.
Qed.

(** Whenever a stretch of a tick submits an order, it has set the lock
    and stops at the await of that order. *)
Lemma entryStep_locks w c market s q t t' p os :
  entryStep w c market s q t = (t', p, os) ->
  os = []
  \/ (processingTradeRef t' = true
      /\ exists o px, p = Some (AwaitBuy c market s o px)
                      /\ os = [buyOrder s market (risk c) o px]).
Proof.
  unfold entryStep.
  destruct (_ <? _)%Z; [intros [= <- <- <-]; now left|].
  destruct (entryCandidate _ _ _) as [[o px]|]; [|intros [= <- <- <-]; now left].
  destruct (Js.geb _ _); intros [= <- <- <-]; [now left|].
  right. split; [reflexivity|]. now exists o, px.
Qed.

Lemma exitStep_locks w c market s q trades t t' p os :
  exitStep w c market s q trades t = (t', p, os) ->
  os = []
  \/ (processingTradeRef t' = true
      /\ exists p', p = Some p' /\ awaitsOrder p' = true
                    /\ (List.length os = 1)%nat).
Proof.
  revert t; induction trades as [|trade rest IH]; intros t; cbn [exitStep].
  - intros H. destruct (entryStep_locks _ _ _ _ _ _ _ _ _ H)
      as [->|(Hl & o & px & -> & ->)]; [now left|].
    right. split; [exact Hl|]. eexists. repeat split.
  - destruct (takeProfitDue (risk c) q trade); [|apply IH].
    intros [= <- <- <-]. right. split; [reflexivity|].
    eexists. repeat split.
Qed.

Lemma resume_locks w p t t' p' os :
  resume w p t = (t', p', os) ->
  os = []
  \/ (processingTradeRef t' = true
      /\ exists p'', p' = Some p'' /\ awaitsOrder p'' = true
                     /\ (List.length os = 1)%nat).
Proof.
  destruct p; cbn [resume].
  - apply exitStep_locks.
  - apply exitStep_locks.
  - intros [= <- <- <-]. now left.
Qed.

(** When the promise of an order settles, filled or rejected, the lock is
    released before the tick goes on: the stretch after a SELL starts from
    an unlocked state, and the tick ends unlocked after a BUY. *)
Lemma lock_released_after_order w r trade c market o px res t :
  processingTradeRef (endSell r trade res t) = false
  /\ isExecuting (endSell r trade res t) = false
  /\ processingTradeRef (endBuy w c market o px res t) = false
  /\ isExecuting (endBuy w c market o px res t) = false.
Proof. destruct res; repeat split. Qed.

(** A tick run to its end leaves the lock free again. *)
Lemma runEngine_releases_lock w c t :
  processingTradeRef t = false ->
  processingTradeRef (fst (runEngine w c t)) = false.
Proof.
  intros Hl.
  destruct (runEngine_cases c t) as [(market & Hm & Hr)|Hn'].
  - rewrite (runEngine_ready w c market t Hm Hr). cbn [fst].
    apply entryLogic_lock. unfold atEntry. apply exitLoop_lock.
    now rewrite atExits_lock.
  - destruct (runEngine_not_ready w c t Hn') as (_ & _ & _ & D). congruence.
Qed.

(** ** One tick on the machine is [runEngine] *)

Lemma settle_done fuel w m : suspended m = [] -> settle fuel w m = m.
Proof. intros H. destruct fuel; cbn [settle]; [reflexivity|now rewrite H]. Qed.

Lemma resolve_single w p t os0 :
  machineStep {| terminal := t; suspended := [p]; submitted := os0 |}
    (Resolves 0 w)
  = oneTick (resume w p t) os0.
Proof.
  cbn [machineStep suspended terminal submitted nth_error].
  destruct (resume w p t) as [[t' p'] os]. unfold oneTick.
  cbn [fst snd firstn skipn app]. now rewrite app_nil_r.
Qed.

Lemma settle_single n w p t os0 :
  settle (S n) w {| terminal := t; suspended := [p]; submitted := os0 |}
  = settle n w (oneTick (resume w p t) os0).
Proof. cbn [settle suspended]. now rewrite resolve_single. Qed.

Lemma settle_entry fuel w c market s q t os0 :
  (0 < fuel)%nat ->
  settle fuel w (oneTick (entryStep w c market s q t) os0)
  = {| terminal := fst (entryLogic w c market s q t);
       suspended := [];
       submitted := os0 ++ snd (entryLogic w c market s q t) |}.
Proof.
  intros Hf. unfold entryStep, entryLogic.
  destruct (_ <? _)%Z; [now apply settle_done|].
  destruct (entryCandidate _ _ _) as [[o px]|]; [|now apply settle_done].
  destruct (Js.geb _ _); [now apply settle_done|].
  destruct fuel as [|fuel]; [lia|].
  unfold oneTick at 1. cbn [fst snd optList].
  rewrite settle_single. cbn [resume]. rewrite settle_done by reflexivity.
  unfold oneTick. cbn [fst snd optList]. now rewrite app_nil_r.
Qed.

Lemma settle_exit w c market s q trades :
  forall fuel t os0,
    (List.length trades < fuel)%nat ->
    settle fuel w (oneTick (exitStep w c market s q trades t) os0)
    = {| terminal :=
           fst (entryLogic w c market s q
                  (fst (exitLoop w s market (risk c) q trades t)));
         suspended := [];
         submitted :=
           os0 ++ snd (exitLoop w s market (risk c) q trades t)
           ++ snd (entryLogic w c market s q
                     (fst (exitLoop w s market (risk c) q trades t))) |}.
Proof.
  induction trades as [|trade rest IH]; intros fuel t os0 Hf.
  - cbn [exitStep exitLoop fst snd app]. apply settle_entry. lia.
  - cbn [exitStep exitLoop List.length] in *.
    destruct (takeProfitDue (risk c) q trade).
    + destruct fuel as [|fuel]; [lia|].
      unfold oneTick at 1. cbn [fst snd optList].
      rewrite settle_single. cbn [resume].
      rewrite IH by lia.
      destruct (exitLoop w s market (risk c) q rest _) as [t3 os].
      cbn [fst snd]. now rewrite <- app_assoc.
    + apply IH. lia.
Qed.

(** The machine fed a single tick, its awaits resolved one after the
    other, ends in the state and with the orders of [runEngine]. *)
Lemma machine_tick_is_runEngine w c t :
  settle (2 + List.length (logs (botStatus t))) w
    (machineStep {| terminal := t; suspended := []; submitted := [] |}
       (TimerFires c))
  = {| terminal := fst (runEngine w c t);
       suspended := [];
       submitted := snd (runEngine w c t) |}.
Proof.
  destruct (runEngine_cases c t) as [(market & Hm & (Ha & Hc & Hl))|Hn'].
  - rewrite (runEngine_ready w c market t Hm (conj Ha (conj Hc Hl))).
    cbn [machineStep terminal suspended submitted app].
    unfold startTick. rewrite Ha, Hm. cbn [negb]. rewrite Hc, Hl.
    cbn [Nat.add optList app].
    rewrite settle_single. cbn [resume addEvent botStatus].
    fold (tickQuotes w market).
    rewrite settle_exit.
    + cbn [app fst snd]. unfold atEntry, atExits. cbn [addEvent botStatus].
      rewrite exitLoop_orders. reflexivity.
    + unfold openTrades.
      pose proof (filter_length_le
                    (fun l => Status_eqb (TradeLog.status l) OPEN
                              && String.eqb (TradeLog.marketId l) (id market))
                    (logs (botStatus t))).
      lia.
  - cbn [machineStep terminal suspended submitted app].
    assert (Hs : startTick c t = (fst (runEngine w c t), None)).
    { unfold startTick, runEngine.
      destruct (isActive (botStatus t)); cbn [negb]; [|reflexivity].
      destruct (selectedMarket c) as [market|]; [|reflexivity].
      destruct (notConfigured c (secrets (botStatus t))); [reflexivity|].
      destruct (processingTradeRef t) eqn:Hl; [reflexivity|].
      destruct Hn' as [H|[H|[H|H]]]; discriminate. }
    rewrite Hs. destruct (runEngine_not_ready w c t Hn') as (-> & _).
    now rewrite settle_done.
Qed.

(** ** C4: interleaved ticks *)

Lemma startTick_lock c t :
  processingTradeRef (fst (startTick c t)) = processingTradeRef t.
Proof.
  unfold startTick. destruct (isActive (botStatus t)); [|reflexivity].
  destruct (selectedMarket c); [|reflexivity]. cbn [negb].
  destruct (notConfigured _ _); [reflexivity|].
  destruct (processingTradeRef t) eqn:E; cbn [fst addEvent processingTradeRef];
    congruence.
Qed.

Lemma startTick_pending c t p :
  snd (startTick c t) = Some p ->
  awaitsOrder p = false /\ processingTradeRef t = false.
Proof.
  unfold startTick. destruct (isActive (botStatus t)); [|discriminate].
  destruct (selectedMarket c); [|discriminate]. cbn [negb].
  destruct (notConfigured _ _); [discriminate|].
  destruct (processingTradeRef t); [discriminate|].
  intros [= <-]. split; reflexivity.
Qed.

Lemma exitStep_pending w c market s q trades t t' p os :
  exitStep w c market s q trades t = (t', Some p, os) ->
  awaitsOrder p = true /\ processingTradeRef t' = true.
Proof.
  revert t; induction trades as [|trade rest IH]; intros t; cbn [exitStep].
  - unfold entryStep. destruct (_ <? _)%Z; [discriminate|].
    destruct (entryCandidate _ _ _) as [[o px]|]; [|discriminate].
    destruct (Js.geb _ _); [discriminate|].
    intros [= <- <- <-]. split; reflexivity.
  - destruct (takeProfitDue (risk c) q trade); [|apply IH].
    intros [= <- <- <-]. split; reflexivity.
Qed.

Lemma resume_pending w p t t' p' os :
  resume w p t = (t', Some p', os) ->
  awaitsOrder p' = true /\ processingTradeRef t' = true.
Proof.
  destruct p; cbn [resume]; try apply exitStep_pending. discriminate.
Qed.

Lemma serialized_step m i :
  serialized m ->
  match i with
  | TimerFires _ => forallb awaitsOrder (suspended m) = true
  | Resolves _ _ => True
  end ->
  serialized (machineStep m i).
Proof.
  intros (Hlen & Hlock) Hi. destruct i as [c|k w]; cbn [machineStep].
  - destruct (startTick c (terminal m)) as [t' p'] eqn:Hs.
    pose proof (startTick_lock c (terminal m)) as Hl. rewrite Hs in Hl.
    cbn [fst] in Hl.
    destruct (suspended m) as [|p [|p2 rest]] eqn:Hsusp;
      [| |cbn [List.length] in Hlen; lia].
    + split; cbn [terminal suspended app].
      * destruct p'; cbn; lia.
      * intros p Hin Hp. destruct p' as [p'|]; [|destruct Hin].
        destruct Hin as [<-|[]].
        destruct (startTick_pending c (terminal m) p') as (Hf & _);
          [now rewrite Hs|congruence].
    + cbn [forallb] in Hi. rewrite andb_true_r in Hi.
      assert (Hlk : processingTradeRef (terminal m) = true)
        by (apply (Hlock p); [now left|exact Hi]).
      destruct p' as [p'|].
      * destruct (startTick_pending c (terminal m) p') as (_ & Hf);
          [now rewrite Hs|congruence].
      * split; cbn [terminal suspended app optList].
        -- cbn; lia.
        -- intros p0 _ _. congruence.
  - destruct (nth_error (suspended m) k) as [p|] eqn:Hk; [|now split].
    destruct (resume w p (terminal m)) as [[t' p'] os] eqn:Hr.
    destruct (suspended m) as [|p0 [|p2 rest]] eqn:Hsusp;
      [destruct k; discriminate| |cbn [List.length] in Hlen; lia].
    destruct k as [|k]; [|destruct k; discriminate].
    cbn [nth_error] in Hk. injection Hk as ->.
    split; cbn [terminal suspended firstn skipn app].
    + rewrite app_nil_r. destruct p'; cbn; lia.
    + rewrite app_nil_r. intros p1 Hin _.
      destruct p' as [p'|]; [|destruct Hin].
      now destruct (resume_pending w p (terminal m) t' p' os Hr).
Qed.

Lemma serialized_in_flight m :
  serialized m -> (ordersInFlight m <= 1)%nat.
Proof.
  intros (Hlen & _). unfold ordersInFlight.
  pose proof (filter_length_le awaitsOrder (suspended m)). lia.
Qed.

(** As long as no tick fires during another tick's order-book fetch, at
    most one order submission is in flight. *)
Lemma one_order_in_flight_without_overlap inputs :
  forall m,
    serialized m ->
    noFireDuringFetch m inputs ->
    serialized (machineRun m inputs)
    /\ (ordersInFlight (machineRun m inputs) <= 1)%nat.
Proof.
  induction inputs as [|i rest IH]; intros m Hm Hin.
  - split; [exact Hm|now apply serialized_in_flight].
  - destruct Hin as (Hi & Hrest). cbn [machineRun fold_left].
    apply IH; [now apply serialized_step|exact Hrest].
Qed.


(** ** C9 *)

Lemma prefix_toLowerCase a :
  forall b, String.prefix a b = true ->
            String.prefix (Str.toLowerCase a) (Str.toLowerCase b) = true.
Proof.
  induction a as [|x a IH]; intros b; [now destruct b|].
  destruct b as [|y b]; [discriminate|].
  cbn [String.prefix Str.toLowerCase].
  destruct (ascii_dec x y) as [->|]; [|discriminate].
  intros H. destruct (ascii_dec (Str.lowerAscii y) (Str.lowerAscii y));
    [now apply IH|congruence].
Qed.

Lemma includes_toLowerCase needle :
  Str.toLowerCase needle = needle ->
  forall hay, Str.includes needle hay = true ->
              Str.includes needle (Str.toLowerCase hay) = true.
Proof.
  intros Hn hay. induction hay as [|y hay IH]; cbn [Str.includes Str.toLowerCase].
  - rewrite !orb_false_r. intros H.
    apply prefix_toLowerCase in H. now rewrite Hn in H.
  - rewrite !orb_true_iff. intros [H|H].
    + left. apply prefix_toLowerCase in H. now rewrite Hn in H.
    + right. now apply IH.
Qed.

(** A rejection whose message contains one of the three markers is an
    authorization error for the entry path. *)
Lemma isAuthError_markers m :
  Str.includes "401" m = true
  \/ Str.includes "unauthorized" m = true
  \/ Str.includes "invalid api key" m = true ->
  isAuthError m = true.
Proof.
  unfold isAuthError. rewrite !orb_true_iff. intros [H|[H|H]].
  - left; right. exact H.
  - left; left. now apply includes_toLowerCase.
  - right. now apply includes_toLowerCase.
Qed.

(** What the entry path reports on a rejected BUY: the authorization
    error followed by its three remediation lines, or the message as it
    is. *)
Lemma buy_failure_events w c market o px m t :
  (isAuthError m = true ->
   firstn 4 (systemEvents (endBuy w c market o px (Rejected m) t))
   = [ {| msg := Text "FIX: 3. Ensure you are using the Proxy Wallet address if using the Relayer.";
          type := ERROR |};
       {| msg := Text "FIX: 2. Verify API Key, Secret, and Passphrase match your Polymarket settings exactly.";
          type := ERROR |};
       {| msg := Text "FIX: 1. Go to 'Vault Keys' tab."; type := ERROR |};
       {| msg := Text "AUTH ERROR: API Key Rejected by Polymarket.";
          type := ERROR |} ])
  /\ (isAuthError m = false ->
      hd_error (systemEvents (endBuy w c market o px (Rejected m) t))
      = Some {| msg := Text ("Entry Execution Failed: " ++ m); type := ERROR |}).
Proof.
  unfold endBuy. split; intros ->; reflexivity.
Qed.

(** What the exit path reports on a rejected SELL: the message as it is,
    whatever it contains. *)
Lemma sell_failure_event r trade m t :
  hd_error (systemEvents (endSell r trade (Rejected m) t))
  = Some {| msg := Text ("TP Execution Failed: " ++ m); type := ERROR |}.
Proof. reflexivity. Qed.

(** The orders of a tick do not depend on how the submissions turn out:
    a rejected order is not submitted again, and the orders after it are
    those that would have followed a confirmed one. *)
Lemma orders_do_not_depend_on_results w place' c t :
  snd (runEngine w c t)
  = snd (runEngine
           {| fetchOrderBook := fetchOrderBook w;
              placeOrderWithClient := place';
              nowAtEntry := nowAtEntry w;
              nowAtLog := nowAtLog w;
              nowAtConfirm := nowAtConfirm w;
              randomId := randomId w |} c t).
Proof.
  set (w' := {| fetchOrderBook := fetchOrderBook w;
                placeOrderWithClient := place';
                nowAtEntry := nowAtEntry w;
                nowAtLog := nowAtLog w;
                nowAtConfirm := nowAtConfirm w;
                randomId := randomId w |}).
  destruct (runEngine_cases c t) as [(market & Hm & Hr)|Hn'].
  - rewrite (runEngine_ready w c market t Hm Hr),
            (runEngine_ready w' c market t Hm Hr).
    cbn [snd]. rewrite !entryLogic_orders, !atEntry_lastTrade,
                       !atEntry_currentBuys.
    reflexivity.
  - destruct (runEngine_not_ready w c t Hn') as (-> & _).
    destruct (runEngine_not_ready w' c t Hn') as (-> & _).
    reflexivity.
Qed.

(** A tick that reaches its body leaves the engine active, whatever the
    results of its submissions. *)
Lemma engine_stays_active w c market t :
  selectedMarket c = Some market ->
  ready c t ->
  isActive (botStatus (fst (runEngine w c t))) = true.
Proof.
  intros Hm Hr. rewrite (runEngine_ready w c market t Hm Hr). cbn [fst].
  rewrite entryLogic_active. unfold atEntry.
  destruct (exitLoop_frame w (secrets (botStatus t)) market (risk c)
              (tickQuotes w market) (openTrades market (logs (botStatus t)))
              (atExits w market t)) as (A & _).
  rewrite A, atExits_active. apply Hr.
Qed.


(** ** Binary64 facts

    What the properties of the price model need from IEEE arithmetic,
    derived from the specification of the primitive operations. *)

Lemma iter_shr_nonneg p : forall mrs, (0 <= shr_m mrs)%Z -> (0 <= shr_m (iter_pos shr_1 p mrs))%Z.
Proof.
  induction p as [p IH|p IH|]; intros mrs H; cbn [iter_pos].
  - apply IH, IH. destruct mrs as [m r s]. cbn in *. destruct m as [|[q|q|]|q]; cbn; lia.
  - apply IH, IH, H.
  - destruct mrs as [m r s]. cbn in *. destruct m as [|[q|q|]|q]; cbn; lia.
Qed.

Lemma shr_fexp_nonneg m e l : (0 <= m)%Z -> (0 <= shr_m (fst (shr_fexp prec emax m e l)))%Z.
Proof.
  intros H. unfold shr_fexp, shr.
  assert (H0 : (0 <= shr_m (shr_record_of_loc m l))%Z).
  { destruct l as [|[]]; exact H. }
  destruct (_ - e)%Z; cbn [fst]; auto. now apply iter_shr_nonneg.
Qed.

Lemma binary_round_aux_signed sx mx ex lx :
  (0 <= mx)%Z -> signed sx (binary_round_aux prec emax sx mx ex lx).
Proof.
  intros H. unfold binary_round_aux.
  pose proof (shr_fexp_nonneg mx ex lx H) as H1.
  destruct (shr_fexp prec emax mx ex lx) as [mrs' e']. cbn [fst] in H1.
  assert (H2 : (0 <= round_nearest_even (shr_m mrs') (loc_of_shr_record mrs'))%Z).
  { unfold round_nearest_even. destruct (loc_of_shr_record mrs') as [|[]]; try lia.
    destruct (Z.even _); lia. }
  pose proof (shr_fexp_nonneg _ e' loc_Exact H2) as H3.
  destruct (shr_fexp prec emax _ e' loc_Exact) as [mrs'' e'']. cbn [fst] in H3.
  destruct (shr_m mrs''); [reflexivity| |lia].
  destruct (_ <=? _)%Z; reflexivity.
Qed.

Lemma binary_round_signed sx mx ex : signed sx (binary_round prec emax sx mx ex).
Proof.
  unfold binary_round. destruct (shl_align mx ex _) as [mz ez].
  apply binary_round_aux_signed. lia.
Qed.

Lemma signed_numeric sx X : signed sx X -> numeric X.
Proof. destruct X; cbn; unfold numeric; congruence. Qed.

Lemma binary_normalize_numeric m e sz : numeric (binary_normalize prec emax m e sz).
Proof.
  destruct m; cbn [binary_normalize].
  - discriminate.
  - eapply signed_numeric, binary_round_signed.
  - eapply signed_numeric, binary_round_signed.
Qed.

Lemma SFadd_numeric X Y : numeric X -> finiteSF Y -> numeric (SFadd prec emax X Y).
Proof.
  destruct X as [sx|sx| |sx mx ex], Y as [sy|sy| |sy my ey]; cbn; unfold numeric; try congruence; try tauto.
  - destruct sx, sy; congruence.
  - intros _ _. apply binary_normalize_numeric.
Qed.

Lemma SFsub_numeric X Y : finiteSF X -> numeric Y -> numeric (SFsub prec emax X Y).
Proof.
  destruct X as [sx|sx| |sx mx ex], Y as [sy|sy| |sy my ey]; cbn; unfold numeric; try congruence; try tauto.
  - destruct sx, sy; congruence.
  - intros _ _. apply binary_normalize_numeric.
Qed.

Lemma SFmul_self X : numeric X -> signed false (SFmul prec emax X X).
Proof.
  destruct X as [sx|sx| |sx mx ex]; cbn; unfold numeric; try congruence; intros _.
  - now destruct sx.
  - now destruct sx.
  - rewrite xorb_nilpotent. apply binary_round_aux_signed. lia.
Qed.

Lemma SFadd_nonneg X Y : signed false X -> signed false Y -> signed false (SFadd prec emax X Y).
Proof.
  destruct X as [sx|sx| |sx mx ex], Y as [sy|sy| |sy my ey]; cbn; try tauto; intros -> ->; try reflexivity.
  cbn. apply binary_round_signed.
Qed.

Lemma SFdiv_core_nonneg m1 e1 m2 e2 :
  (0 <= fst (fst (SFdiv_core_binary prec emax (Zpos m1) e1 (Zpos m2) e2)))%Z.
Proof.
  unfold SFdiv_core_binary.
  set (s := (e1 - e2 - _)%Z).
  set (m' := match s with Zpos _ => Z.shiftl (Zpos m1) s | Z0 => Zpos m1 | Zneg _ => 0%Z end).
  assert (Hm : (0 <= m')%Z).
  { unfold m'. destruct s; try lia. apply Z.shiftl_nonneg. lia. }
  pose proof (Z.div_pos m' (Zpos m2) Hm ltac:(lia)) as Hq.
  unfold Z.div in Hq.
  destruct (Z.div_eucl m' (Zpos m2)) as [q r]. exact Hq.
Qed.

Lemma SFdiv_numeric X Y : numeric X -> positiveFinite Y -> numeric (SFdiv prec emax X Y).
Proof.
  destruct X as [sx|sx| |sx mx ex], Y as [sy|sy| |[|] my ey]; cbn [SFdiv positiveFinite]; unfold numeric; try congruence; try tauto.
  intros _ _.
  pose proof (SFdiv_core_nonneg mx ex my ey) as H.
  destruct (SFdiv_core_binary prec emax (Zpos mx) ex (Zpos my) ey) as [[mz ez] lz].
  eapply signed_numeric, binary_round_aux_signed, H.
Qed.

Lemma SFdiv_nonneg X Y : signed false X -> positiveFinite Y -> signed false (SFdiv prec emax X Y).
Proof.
  destruct X as [sx|sx| |sx mx ex], Y as [sy|sy| |[|] my ey]; cbn [SFdiv positiveFinite signed]; try tauto.
  - intros ->. reflexivity.
  - intros ->. reflexivity.
  - intros -> _.
    pose proof (SFdiv_core_nonneg mx ex my ey) as H.
    destruct (SFdiv_core_binary prec emax (Zpos mx) ex (Zpos my) ey) as [[mz ez] lz].
    apply binary_round_aux_signed, H.
Qed.

Lemma SFsqrt_nonneg X : signed false X -> signed false (SFsqrt prec emax X).
Proof.
  destruct X as [sx|sx| |sx mx ex]; cbn [SFsqrt signed]; try tauto; intros ->; try reflexivity.
  unfold SFsqrt_core_binary.
  set (s := (ex - _)%Z).
  set (m' := match s with Zpos _ => Z.shiftl (Zpos mx) s | Z0 => Zpos mx | Zneg _ => 0%Z end).
  pose proof (Z.sqrtrem_spec m') as Hs.
  assert (Hm : (0 <= m')%Z).
  { unfold m'. destruct s; try lia. apply Z.shiftl_nonneg. lia. }
  specialize (Hs Hm).
  destruct (Z.sqrtrem m') as [q r].
  apply binary_round_aux_signed. lia.
Qed.

Lemma SFcompare_antisym X Y c :
  SFcompare X Y = Some c -> SFcompare Y X = Some (CompOpp c).
Proof.
  destruct X as [sx|sx| |sx mx ex], Y as [sy|sy| |sy my ey]; cbn [SFcompare];
    try discriminate; try (intros [= <-]; try destruct sx; try destruct sy; reflexivity).
  intros [= <-]. f_equal.
  destruct sx, sy; try reflexivity.
  - rewrite (Z.compare_antisym ey ex). destruct (ey ?= ex)%Z; cbn; try reflexivity.
    rewrite (Pos.compare_cont_antisym), CompOpp_involutive. reflexivity.
  - rewrite (Z.compare_antisym ey ex). destruct (ey ?= ex)%Z; cbn; try reflexivity.
    rewrite (Pos.compare_cont_antisym). reflexivity.
Qed.

Lemma shr_fexp_canonical m e :
  canonical_mantissa prec emax m e = true ->
  shr_fexp prec emax (Zpos m) e loc_Exact
  = ({| shr_m := Zpos m; shr_r := false; shr_s := false |}, e).
Proof.
  unfold canonical_mantissa, shr_fexp. intros H. apply Z.eqb_eq in H.
  cbn [Zdigits2 shr_record_of_loc]. rewrite H, Z.sub_diag. reflexivity.
Qed.

Lemma binary_round_aux_bounded sx m e :
  bounded prec emax m e = true ->
  binary_round_aux prec emax sx (Zpos m) e loc_Exact = S754_finite sx m e.
Proof.
  unfold bounded. intros H. apply andb_true_iff in H. destruct H as [Hc He].
  unfold binary_round_aux. rewrite (shr_fexp_canonical m e Hc).
  cbn [shr_m loc_of_shr_record round_nearest_even].
  rewrite (shr_fexp_canonical m e Hc). cbn [shr_m]. now rewrite He.
Qed.

Lemma digits2_iter_xO p k :
  digits2_pos (Pos.iter xO p k) = (digits2_pos p + k)%positive.
Proof.
  induction k as [|k IH] using Pos.peano_ind.
  - cbn. lia.
  - rewrite Pos.iter_succ. cbn [digits2_pos]. rewrite IH. lia.
Qed.

Lemma digits2_pos_bound p k :
  (Zpos p < 2 ^ Zpos k)%Z -> (digits2_pos p <= k)%positive.
Proof.
  revert k. induction p as [p IH|p IH|]; intros k H; cbn [digits2_pos].
  - destruct (Pos.eq_dec k 1) as [->|Hk]; [cbn in H; lia|].
    assert (Hk' : Zpos k = (Zpos (Pos.pred k) + 1)%Z) by lia.
    specialize (IH (Pos.pred k)).
    rewrite Hk', Z.pow_add_r in H by lia. lia.
  - destruct (Pos.eq_dec k 1) as [->|Hk]; [cbn in H; lia|].
    assert (Hk' : Zpos k = (Zpos (Pos.pred k) + 1)%Z) by lia.
    specialize (IH (Pos.pred k)).
    rewrite Hk', Z.pow_add_r in H by lia. lia.
  - lia.
Qed.

Lemma binary_round_small p :
  (Zpos p < 2 ^ 53)%Z ->
  exists m e, binary_round prec emax false p 0 = S754_finite false m e
              /\ bounded prec emax m e = true.
Proof.
  intros Hp. pose proof (digits2_pos_bound p 53 Hp) as Hd.
  unfold binary_round.
  assert (Hf : fexp prec emax (Zpos (digits2_pos p) + 0) = (Zpos (digits2_pos p) - 53)%Z).
  { unfold fexp, SpecFloat.emin, prec, emax. lia. }
  rewrite Hf. unfold shl_align. rewrite Z.sub_0_r.
  destruct (Zpos (digits2_pos p) - 53)%Z as [|k|k] eqn:Hk; [|lia|].
  - exists p, 0%Z. rewrite binary_round_aux_bounded.
    + split; [reflexivity|].
      unfold bounded, canonical_mantissa, fexp, SpecFloat.emin, prec, emax.
      apply andb_true_iff. split; [apply Z.eqb_eq|apply Z.leb_le]; lia.
    + unfold bounded, canonical_mantissa, fexp, SpecFloat.emin, prec, emax.
      apply andb_true_iff. split; [apply Z.eqb_eq|apply Z.leb_le]; lia.
  - assert (Hb : bounded prec emax (Pos.iter xO p k) (Zneg k) = true).
    { unfold bounded, canonical_mantissa, fexp, SpecFloat.emin, prec, emax.
      rewrite digits2_iter_xO.
      apply andb_true_iff. split; [apply Z.eqb_eq|apply Z.leb_le]; lia. }
    exists (Pos.iter xO p k), (Zneg k). rewrite binary_round_aux_bounded; auto.
Qed.

Lemma ofZ_positive z :
  (0 < z < 2 ^ 53)%Z ->
  positiveFinite (Prim2SF (SF2Prim (binary_normalize prec emax z 0 false))).
Proof.
  intros [H0 H1]. destruct z as [|p|p]; try lia. cbn [binary_normalize].
  destruct (binary_round_small p H1) as (m & e & -> & Hb).
  rewrite Prim2SF_SF2Prim by exact Hb. exact I.
Qed.

Lemma SFcompare_refl X : numeric X -> SFcompare X X = Some Eq.
Proof.
  destruct X as [sx|sx| |sx mx ex]; cbn [SFcompare]; unfold numeric; try congruence; intros _.
  - now destruct sx.
  - destruct sx; rewrite Z.compare_refl, Pos.compare_cont_refl; reflexivity.
Qed.

Lemma is_nan_spec x : is_nan x = true <-> Prim2SF x = S754_nan.
Proof.
  unfold is_nan. rewrite eqb_spec. unfold SFeqb.
  destruct (Prim2SF x) as [sx|sx| |sx mx ex] eqn:E.
  - rewrite SFcompare_refl by discriminate. cbn. split; discriminate.
  - rewrite SFcompare_refl by discriminate. cbn. split; discriminate.
  - cbn. tauto.
  - rewrite SFcompare_refl by discriminate. cbn. split; discriminate.
Qed.

Lemma is_nan_false x : is_nan x = false <-> numeric (Prim2SF x).
Proof.
  unfold numeric. rewrite <- is_nan_spec. destruct (is_nan x); split; congruence.
Qed.

Lemma is_finite_spec x : is_finite x = true -> finiteSF (Prim2SF x).
Proof.
  unfold is_finite. rewrite negb_true_iff, orb_false_iff. intros [Hn Hi].
  apply is_nan_false in Hn. unfold is_infinity in Hi.
  rewrite eqb_spec, abs_spec in Hi.
  destruct (Prim2SF x) as [sx|sx| |sx mx ex]; cbn; auto.
  vm_compute in Hi. discriminate.
Qed.

Lemma leb_of_not_ltb x y :
  is_nan x = false -> is_nan y = false -> (x <? y) = false -> (y <=? x) = true.
Proof.
  rewrite !is_nan_false, ltb_spec, leb_spec. unfold SFltb, SFleb. intros Hx Hy.
  destruct (SFcompare (Prim2SF x) (Prim2SF y)) as [c|] eqn:E.
  - rewrite (SFcompare_antisym _ _ _ E). destruct c; cbn; congruence.
  - exfalso. destruct (Prim2SF x), (Prim2SF y); cbn in E; try discriminate;
      unfold numeric in *; congruence.
Qed.





Lemma nonNegative_isNumber x : nonNegative x -> isNumber x.
Proof. apply signed_numeric. Qed.

Lemma add_isNumber a b : isNumber a -> is_finite b = true -> isNumber (a + b).
Proof.
  unfold isNumber. intros Ha Hb. rewrite add_spec.
  apply SFadd_numeric; [exact Ha|now apply is_finite_spec].
Qed.

Lemma sub_isNumber b m : is_finite b = true -> isNumber m -> isNumber (b - m).
Proof.
  unfold isNumber. intros Hb Hm. rewrite sub_spec.
  apply SFsub_numeric; [now apply is_finite_spec|exact Hm].
Qed.

Lemma div_isNumber a n :
  isNumber a -> positiveFinite (Prim2SF n) -> isNumber (a / n).
Proof. unfold isNumber. intros. rewrite div_spec. now apply SFdiv_numeric. Qed.

Lemma square_nonNegative d : isNumber d -> nonNegative (Js.square d).
Proof.
  unfold isNumber, nonNegative, Js.square. intros. rewrite mul_spec.
  now apply SFmul_self.
Qed.

Lemma add_nonNegative a b : nonNegative a -> nonNegative b -> nonNegative (a + b).
Proof. unfold nonNegative. intros. rewrite add_spec. now apply SFadd_nonneg. Qed.

Lemma div_nonNegative a n :
  nonNegative a -> positiveFinite (Prim2SF n) -> nonNegative (a / n).
Proof. unfold nonNegative. intros. rewrite div_spec. now apply SFdiv_nonneg. Qed.

Lemma sqrt_nonNegative a : nonNegative a -> nonNegative (sqrt a).
Proof. unfold nonNegative. intros. rewrite sqrt_spec. now apply SFsqrt_nonneg. Qed.

Lemma ofNat_positive n :
  (0 < n)%nat -> (Z.of_nat n < 2 ^ 53)%Z -> positiveFinite (Prim2SF (Js.ofNat n)).
Proof. intros. apply ofZ_positive. lia. Qed.

(** [Math.max(s, 1)] is at least 1 unless [s] is NaN. *)
Lemma max_one_ge s : isNumber s -> (1 <=? Js.max s 1) = true.
Proof.
  intros Hs. apply is_nan_false in Hs. unfold Js.max. rewrite Hs.
  change (is_nan 1) with false. cbn [orb].
  destruct (s <? 1) eqn:H1; [reflexivity|].
  destruct (1 <? s) eqn:H2.
  - rewrite ltb_spec in H2. rewrite leb_spec. unfold SFltb, SFleb in *.
    destruct (SFcompare (Prim2SF 1) (Prim2SF s)) as [[]|]; congruence.
  - destruct (Js.isNegZero s); [reflexivity|].
    apply leb_of_not_ltb; [exact Hs|reflexivity|exact H1].
Qed.

(** ** C7 *)



(** ** C8 *)

Lemma fold_deviations (m : float) (l : list float) (acc : float) :
  fold_left (fun a b => a + Js.square (b - m)) l acc
  = fold_left (fun a b => a + b) (map (fun p => Js.square (p - m)) l) acc.
Proof.
  revert acc; induction l as [|p l IH]; intros acc; [reflexivity|].
  cbn [fold_left map]. apply IH.
Qed.

Lemma calculateVolatility_unfold h :
  (2 <= List.length h)%nat ->
  BitcoinService.calculateVolatility h
  = Js.max (populationStdDev (map BitcoinService.price h)) 1.0.
Proof.
  intros Hn. unfold BitcoinService.calculateVolatility.
  destruct (Nat.ltb_spec (List.length h) 2) as [Hlt|_]; [lia|].
  cbv zeta. rewrite fold_deviations.
  unfold populationStdDev, squaredDeviations, total, mean. reflexivity.
Qed.

Lemma total_isNumber l :
  Forall (fun p => is_finite p = true) l ->
  forall acc, isNumber acc -> isNumber (fold_left (fun a b => a + b) l acc).
Proof.
  induction 1 as [|p l Hp _ IH]; intros acc Hacc; [exact Hacc|].
  cbn [fold_left]. apply IH. now apply add_isNumber.
Qed.

Lemma deviations_nonNegative m l :
  isNumber m ->
  Forall (fun p => is_finite p = true) l ->
  forall acc,
    nonNegative acc ->
    nonNegative (fold_left (fun a b => a + Js.square (b - m)) l acc).
Proof.
  intros Hm. induction 1 as [|p l Hp _ IH]; intros acc Hacc; [exact Hacc|].
  cbn [fold_left]. apply IH. apply add_nonNegative; [exact Hacc|].
  apply square_nonNegative. now apply sub_isNumber.
Qed.

(** With finite prices the volatility is a number, and at least 1. *)
Lemma calculateVolatility_floor h :
  (2 <= List.length h)%nat ->
  (Z.of_nat (List.length h) < 2 ^ 53)%Z ->
  Forall (fun e => is_finite (BitcoinService.price e) = true) h ->
  (1.0 <=? BitcoinService.calculateVolatility h) = true.
Proof.
  intros Hn Hlen Hfin. unfold BitcoinService.calculateVolatility.
  destruct (Nat.ltb_spec (List.length h) 2) as [Hlt|_]; [lia|].
  cbv zeta. rewrite length_map.
  assert (Hfin' : Forall (fun p => is_finite p = true)
                    (map BitcoinService.price h)).
  { apply Forall_map. exact Hfin. }
  assert (Hpos : positiveFinite (Prim2SF (Js.ofNat (List.length h))))
    by (apply ofNat_positive; lia).
  set (m := fold_left (fun a b => a + b) (map BitcoinService.price h) 0
            / Js.ofNat (List.length h)).
  assert (Hm : isNumber m).
  { apply div_isNumber; [|exact Hpos].
    apply total_isNumber; [exact Hfin'|]. vm_compute. discriminate. }
  apply max_one_ge, nonNegative_isNumber, sqrt_nonNegative, div_nonNegative;
    [|exact Hpos].
  apply deviations_nonNegative; [exact Hm|exact Hfin'|]. vm_compute. reflexivity.
Qed.

(** C8, as the code has it.  With fewer than two samples the volatility is
    5.  With two or more it is [Math.max] of 1 and the standard deviation
    of the retained prices taken as a population (squared deviations from
    the mean divided by the number of samples, not by one less); with
    finite prices it is at least 1. *)
Theorem volatility_population_stddev (h : list BitcoinService.PriceEntry) :
  ((List.length h < 2)%nat -> BitcoinService.calculateVolatility h = 5.0)
  /\ ((2 <= List.length h)%nat ->
      BitcoinService.calculateVolatility h
      = Js.max (populationStdDev (map BitcoinService.price h)) 1.0)
  /\ ((2 <= List.length h)%nat ->
      (Z.of_nat (List.length h) < 2 ^ 53)%Z ->
      Forall (fun e => is_finite (BitcoinService.price e) = true) h ->
      (1.0 <=? BitcoinService.calculateVolatility h) = true).
Proof.
  split; [|split].
  - intros Hn. unfold BitcoinService.calculateVolatility.
    destruct (Nat.ltb_spec (List.length h) 2) as [_|Hge]; [reflexivity|lia].
  - apply calculateVolatility_unfold.
  - apply calculateVolatility_floor.
Qed.

(** Two samples four dollars apart: the code returns 2, the deviation of
    the population; the sample standard deviation is the square root of
    8. *)
Lemma volatility_not_sample_stddev :
  BitcoinService.calculateVolatility (history [100000; 100004]) = 2
  /\ Js.max (sampleStdDev [100000; 100004]) 1.0 = sqrt 8
  /\ (sqrt 8 =? 2) = false
  /\ (2.8 <? sqrt 8) = true.
Proof. repeat split; vm_compute; reflexivity. Qed.


(** Three prices a quarter of a dollar apart: the deviation is below 1
    and the volatility is the floor. *)
Lemma volatility_population_stddev_witness :
  BitcoinService.calculateVolatility (history [100000.5; 100000.75; 100000.25])
  = Js.max (populationStdDev [100000.5; 100000.75; 100000.25]) 1.0
  /\ (1.0 <=? BitcoinService.calculateVolatility
                (history [100000.5; 100000.75; 100000.25])) = true
  /\ BitcoinService.calculateVolatility (history [100000.5]) = 5.0.
Proof.
  destruct (volatility_population_stddev
              (history [100000.5; 100000.75; 100000.25])) as (_ & B & C).
  destruct (volatility_population_stddev (history [100000.5])) as (A & _).
  split; [apply B; cbn; lia|]. split.
  - apply C; [cbn; lia|cbn; lia|].
    repeat constructor.
  - apply A. cbn; lia.
Defined.
